(** * jsolar: VBus frames from a serial line, republished over HTTP

    A shallow embedding of [jsolar.py]: the frame reader
    ([data_received]), the schema filter of [parse_config], the decoder
    ([ParseVbusPacket]) and the two HTTP handlers of [jsolar_app],
    followed by the properties of the specification that concern them. *)

From Stdlib Require Import List String Ascii ZArith Bool Arith Lia.
From Stdlib Require Import Strings.Byte Floats.PrimFloat DecimalString.
Import ListNotations.

Local Open Scope string_scope.
Local Open Scope list_scope.

(** ** The Python run time that the program relies on *)

(** The exceptions that can cross the modelled code. *)
Inductive exn : Type :=
| IndexError
| KeyError (key : string)
| IncompleteReadError
| LimitOverrunError
| VBUSPacketException (msg : string).

(** A call either returns or raises. *)
Inductive result (A : Type) : Type :=
| Ok (a : A)
| Raise (e : exn).

Arguments Ok {A} a.
Arguments Raise {A} e.

Definition bind {A B : Type} (c : result A) (k : A -> result B) : result B :=
  match c with
  | Ok a => k a
  | Raise e => Raise e
  end.

Notation "x <- c ;; k" := (bind c (fun x => k))
  (at level 61, c at next level, right associativity).

(** A [dict] with [str] keys: insertion ordered, one entry per key. *)
Definition dict (V : Type) : Type := list (string * V).

Fixpoint dict_get {V : Type} (d : dict V) (k : string) : option V :=
  match d with
  | [] => None
  | (k', v) :: d' => if String.eqb k' k then Some v else dict_get d' k
  end.

(** [d[k] = v]: an existing key keeps its place, a new one goes last. *)
Fixpoint dict_set {V : Type} (d : dict V) (k : string) (v : V) : dict V :=
  match d with
  | [] => [(k, v)]
  | (k', v') :: d' =>
      if String.eqb k' k then (k', v) :: d' else (k', v') :: dict_set d' k v
  end.

Definition dict_keys {V : Type} (d : dict V) : list string := map fst d.

(** [d.pop(k, None)], the returned value dropped. *)
Definition dict_pop {V : Type} (d : dict V) (k : string) : dict V :=
  filter (fun e => negb (String.eqb (fst e) k)) d.

(** The invariant of every [dict]: its keys are pairwise distinct. *)
Definition dict_ok {V : Type} (d : dict V) : Prop := NoDup (dict_keys d).

(** The same, as a test. *)
Fixpoint distinct (ks : list string) : bool :=
  match ks with
  | [] => true
  | k :: ks' => negb (existsb (String.eqb k) ks') && distinct ks'
  end.

(** [key in keys] for a list of [str]. *)
Definition mem (k : string) (ks : list string) : bool :=
  existsb (String.eqb k) ks.

(** ** Configuration *)

(** One subsection of [[sensors]], as the configspec of [parse_config]
    validates it; the field names are those of the locals that
    [ParseVbusPacket.__init__] reads them into. *)
Record sensor : Type := {
  sensor_description : string;
  sensor_offset : Z;
  sensor_size : Z;
  sensor_factor : float;
  sensor_position : Z;
  sensor_enabled : bool;
  sensor_type : string;
  sensor_metrics : string
}.

(** The global [config], cut down to what the modelled code reads:
    [config['device'].get('name')] and [config['sensors']]. *)
Record config : Type := {
  device_name : string;
  sensors : dict sensor
}.

(** Lines 107-109 of [parse_config].  A ConfigObj section iterates over a
    copy of its key list, so the loop visits every key of the section as
    it was when the loop began while [pop] shrinks the section. *)
Fixpoint discard_disabled (keys : list string) (sec : dict sensor)
  : result (dict sensor) :=
  match keys with
  | [] => Ok sec
  | k :: keys' =>
      match dict_get sec k with
      | None => Raise (KeyError k)
      | Some s =>
          if negb (sensor_enabled s)
          then discard_disabled keys' (dict_pop sec k)
          else discard_disabled keys' sec
      end
  end.

Definition parse_config (raw : config) : result config :=
  sec <- discard_disabled (dict_keys (sensors raw)) (sensors raw) ;;
  Ok {| device_name := device_name raw; sensors := sec |}.

(** ** The byte source *)

(** [asyncio.streams._DEFAULT_LIMIT], [2 ** 16]: the limit of the reader
    that [open_serial_connection] makes when it is called as at line 51,
    without a [limit]. *)
Definition _DEFAULT_LIMIT : N := 65536.

(** [buffer.find(sep)]: the index of the first [sep], if there is one. *)
Fixpoint buffer_find (sep : byte) (buffer : list byte) : option nat :=
  match buffer with
  | [] => None
  | b :: rest =>
      if Byte.eqb b sep then Some 0 else option_map S (buffer_find sep rest)
  end.

(** [r.readuntil(sep)] on a reader whose pending input, up to the end of
    the stream, is [stream].  Whatever the pace at which the bytes come
    in, the call ends in one of four ways.  With the first [sep] at index
    [isep] it returns the bytes up to and including it and leaves the
    rest, unless [isep] is over the limit, which raises LimitOverrunError.
    With no [sep] it raises: LimitOverrunError once more bytes than the
    limit are buffered, IncompleteReadError at the end of a shorter
    input. *)
Definition readuntil (sep : byte) (stream : list byte)
  : result (list byte * list byte) :=
  match buffer_find sep stream with
  | Some isep =>
      if (_DEFAULT_LIMIT <? N.of_nat isep)%N then Raise LimitOverrunError
      else Ok (firstn (isep + 1) stream, skipn (isep + 1) stream)
  | None =>
      if (_DEFAULT_LIMIT <? N.of_nat (List.length stream))%N
      then Raise LimitOverrunError
      else Raise IncompleteReadError
  end.

(** Lines 44-46: the frame that [dummy_serial] decodes. *)
Definition dummy_buffer : list byte :=
  [xaa; x10; x00; x78; x42; x10; x00; x01; x07; x1d; x39; x00; x7a; x01;
   x01; x4a; x47; x02; x38; x22; x04; x58; x00; x00; x00; x00; x00; x7f;
   x44; x06; x00; x00; x01; x34; x00; x00; x00; x00; x00; x7f; x00; x00;
   x00; x03; x00; x7c; x4a; x00; x00; x00; x01; x34].

(** Lines 61-63: [bytearray(b'\xaa')], [extend] with what was read, then
    the slice [buffer[0:len(buffer)-1]]. *)
Definition frame_buffer (read : list byte) : list byte :=
  let buffer := xaa :: read in
  firstn (List.length buffer - 1) buffer.

(** Line 64: [len(buffer) >= 5 and buffer[5] == 0x10].  [and] evaluates
    its right operand only when the left one holds, and indexing past the
    end raises. *)
Definition frame_check (buffer : list byte) : result bool :=
  if (5 <=? List.length buffer)%nat then
    match nth_error buffer 5 with
    | Some b => Ok (Byte.eqb b x10)
    | None => Raise IndexError
    end
  else Ok false.

(** ** External collaborators *)

(** What a Reading holds under a key: the [str] of the two fixed fields,
    or whatever a field decoder of pyvbus returned. *)
Inductive pyobj (value : Type) : Type :=
| PyStr (s : string)
| PyVal (v : value).

Arguments PyStr {value} s.
Arguments PyVal {value} v.

(** The code that jsolar imports and calls: the pyvbus packet class with
    its four field decoders, and [str] and [json.dumps] on what they
    return.  Nothing below looks inside them. *)
Class Externals : Type := {
  value : Type;
  packet : Type;
  VBUSPacket : list byte -> result packet;
  GetRawValue : packet -> Z -> Z -> result value;
  GetTemperatureValue : packet -> Z -> Z -> float -> result value;
  GetBitValue : packet -> Z -> Z -> result value;
  GetTimeValue : packet -> Z -> Z -> result value;
  str_value : value -> string;
  json_dumps : dict (pyobj value) -> string
}.

(** The line feed that ends every line of the metrics text. *)
Definition LF : string := String (ascii_of_nat 10) EmptyString.

(** The keys of a Reading that are not sensors (line 163). *)
Definition fixed_fields : list string := ["device"; "timestamp"].

Section Program.

Context {E : Externals}.

(** The decode result, the value of the global [parsed_datagram]. *)
Definition reading : Type := dict (pyobj value).

(** [str(x)] for an entry of a Reading. *)
Definition str (x : pyobj value) : string :=
  match x with
  | PyStr s => s
  | PyVal v => str_value v
  end.

(** ** The decoder: class [ParseVbusPacket] *)

(** Lines 131-142: the dispatch on the sensor's [type]. *)
Definition sensor_value (vbus_packet : packet) (s : sensor) : result value :=
  if String.eqb (sensor_type s) "raw" then
    GetRawValue vbus_packet (sensor_offset s) (sensor_size s)
  else if String.eqb (sensor_type s) "temperature" then
    GetTemperatureValue vbus_packet (sensor_offset s) (sensor_size s)
      (sensor_factor s)
  else if String.eqb (sensor_type s) "bit" then
    GetBitValue vbus_packet (sensor_offset s) (sensor_position s)
  else if String.eqb (sensor_type s) "time" then
    GetTimeValue vbus_packet (sensor_offset s) (sensor_size s)
  else
    GetRawValue vbus_packet (sensor_offset s) (sensor_size s).

(** Lines 124-143: the loop over the keys of [config['sensors']]. *)
Fixpoint parse_sensors (cfg : config) (vbus_packet : packet)
  (keys : list string) (datagram : reading) : result reading :=
  match keys with
  | [] => Ok datagram
  | sensor_name :: keys' =>
      match dict_get (sensors cfg) sensor_name with
      | None => Raise (KeyError sensor_name)
      | Some s =>
          v <- sensor_value vbus_packet s ;;
          parse_sensors cfg vbus_packet keys'
            (dict_set datagram sensor_name (PyVal v))
      end
  end.

(** An instance of the class: its one attribute. *)
Record ParseVbusPacket_object : Type := {
  _parsed_datagram : reading
}.

(** [ParseVbusPacket.__init__], with the global [config] and the text
    that [datetime.now()...isoformat()] gives at the call as arguments. *)
Definition ParseVbusPacket (cfg : config) (now : string) (buffer : list byte)
  : result ParseVbusPacket_object :=
  vbus_packet <- VBUSPacket buffer ;;
  let datagram := [("device", PyStr (device_name cfg))] in
  let datagram := dict_set datagram "timestamp" (PyStr now) in
  datagram <- parse_sensors cfg vbus_packet (dict_keys (sensors cfg))
                datagram ;;
  Ok {| _parsed_datagram := datagram |}.

Definition get_parse_result (self : ParseVbusPacket_object) : reading :=
  _parsed_datagram self.

(** The expression [ParseVbusPacket(buffer).get_parse_result()] of lines
    47 and 66. *)
Definition decode (cfg : config) (now : string) (buffer : list byte)
  : result reading :=
  self <- ParseVbusPacket cfg now buffer ;;
  Ok (get_parse_result self).

(** ** The frame reader: [data_received] *)

(** The global [parsed_datagram] ([None] until a frame is decoded), and
    two ghost fields: the buffers that [data_received] gave to the decoder,
    oldest first, and how often the global was assigned. *)
Record state : Type := {
  parsed_datagram : option reading;
  decoder_calls : list (list byte);
  store_writes : nat
}.

(** [main] starts with [parsed_datagram = None]. *)
Definition initial : state :=
  {| parsed_datagram := None; decoder_calls := []; store_writes := 0 |}.

(** Lines 41-47: [dummy_serial] decodes the fixed frame and assigns the
    result to the global. *)
Definition dummy_serial (cfg : config) (now : string) (st : state)
  : result state :=
  r <- decode cfg now dummy_buffer ;;
  Ok {| parsed_datagram := Some r;
        decoder_calls := decoder_calls st;
        store_writes := S (store_writes st) |}.

(** One pass through lines 64-66 either falls through to the next
    iteration or leaves the coroutine with an exception. *)
Inductive step : Type :=
| Continue (st : state)
| Abort (e : exn) (st : state).

(** Lines 64-66 on the candidate [buffer]; [clock n] is the local time
    when the decoder is called for the [n]-th time, counting from 0. *)
Definition process (cfg : config) (clock : nat -> string)
  (buffer : list byte) (st : state) : step :=
  match frame_check buffer with
  | Raise e => Abort e st
  | Ok false => Continue st
  | Ok true =>
      let calls := decoder_calls st ++ [buffer] in
      match decode cfg (clock (List.length (decoder_calls st))) buffer with
      | Raise e =>
          Abort e {| parsed_datagram := parsed_datagram st;
                     decoder_calls := calls;
                     store_writes := store_writes st |}
      | Ok r =>
          Continue {| parsed_datagram := Some r;
                      decoder_calls := calls;
                      store_writes := S (store_writes st) |}
      end
  end.

(** [while True] has no normal exit: a run ends with the exception that
    left the coroutine, or is still going when the fuel is spent. *)
Inductive run : Type :=
| Stopped (e : exn) (st : state)
| Pending (st : state).

(** Lines 60-66, at most [fuel] iterations. *)
Fixpoint loop (cfg : config) (clock : nat -> string) (fuel : nat)
  (stream : list byte) (st : state) : run :=
  match fuel with
  | O => Pending st
  | S fuel' =>
      match readuntil xaa stream with
      | Raise e => Stopped e st
      | Ok (read, rest) =>
          match process cfg clock (frame_buffer read) st with
          | Abort e st' => Stopped e st'
          | Continue st' => loop cfg clock fuel' rest st'
          end
      end
  end.

(** Lines 56-66: skip to the first message start, then loop. *)
Definition data_received (cfg : config) (clock : nat -> string) (fuel : nat)
  (r : list byte) (st : state) : run :=
  match readuntil xaa r with
  | Raise e => Stopped e st
  | Ok (_, rest) => loop cfg clock fuel rest st
  end.

(** ** The HTTP handlers of [jsolar_app] *)

(** How a handler ends: [raise web.HTTPServiceUnavailable], a response
    object (both constructors used leave [status] at its default, 200),
    or an exception that is no HTTP response. *)
Inductive reply : Type :=
| HTTPServiceUnavailable
| Response (text : string)
| Unhandled (e : exn).

(** The status line aiohttp sends for each. *)
Definition status (rp : reply) : nat :=
  match rp with
  | HTTPServiceUnavailable => 503
  | Response _ => 200
  | Unhandled _ => 500
  end.

(** The text that the handler put into its response, if it made one. *)
Definition body (rp : reply) : option string :=
  match rp with
  | Response text => Some text
  | _ => None
  end.

(** Lines 153-156. *)
Definition json_handler (parsed : option reading) : reply :=
  match parsed with
  | None => HTTPServiceUnavailable
  | Some datagram => Response (json_dumps datagram)
  end.

(** Lines 162-168, the loop over the keys of the Reading; [+] on [str]
    is associative, so the nesting of the appends is immaterial. *)
Fixpoint metrics_text (cfg : config) (datagram : reading)
  (keys : list string) (response : string) : result string :=
  match keys with
  | [] => Ok response
  | metric :: keys' =>
      if negb (mem metric fixed_fields) then
        match dict_get (sensors cfg) metric with
        | None => Raise (KeyError metric)
        | Some s =>
            match dict_get datagram metric with
            | None => Raise (KeyError metric)
            | Some v =>
                metrics_text cfg datagram keys'
                  (response ++
                   "# HELP " ++ metric ++ " " ++ sensor_description s ++ LF ++
                   "# TYPE " ++ metric ++ " " ++ sensor_metrics s ++ LF ++
                   metric ++ " " ++ str v ++ LF)%string
            end
        end
      else metrics_text cfg datagram keys' response
  end.

(** Lines 158-169. *)
Definition prometheus_handler (cfg : config) (parsed : option reading)
  : reply :=
  match parsed with
  | None => HTTPServiceUnavailable
  | Some datagram =>
      match metrics_text cfg datagram (dict_keys datagram) "" with
      | Ok response => Response response
      | Raise e => Unhandled e
      end
  end.

(** Lines 171-173: the routes of the application, for a GET of [path];
    [None] where no route is registered. *)
Definition jsolar_app (cfg : config) (parsed : option reading) (path : string)
  : option reply :=
  if String.eqb path "/" then Some (json_handler parsed)
  else if String.eqb path "/metrics" then Some (prometheus_handler cfg parsed)
  else None.

(** Lines 202-216 up to the start of the server: the global is set to
    [None], the configuration is loaded, and [dummy_serial] decodes its
    frame.  The call of [setup_serial] is commented out (line 215), so
    this is the only assignment of the global that [main] leads to. *)
Definition main (raw : config) (now : string) : result (config * state) :=
  cfg <- parse_config raw ;;
  st <- dummy_serial cfg now initial ;;
  Ok (cfg, st).

End Program.

(** ** Vocabulary of the specification *)

Section Vocabulary.

Context {E : Externals}.

(** Where a run has got to, however it ended. *)
Definition state_of (r : run) : state :=
  match r with
  | Stopped _ st => st
  | Pending st => st
  end.

(** Where one pass through lines 64-66 leaves the state. *)
Definition after (s : step) : state :=
  match s with
  | Continue st => st
  | Abort _ st => st
  end.

(** The frame shape of protocol version 1.0: the delimiter first, the
    version marker at index 5. *)
Definition well_shaped (buffer : list byte) : Prop :=
  nth_error buffer 0 = Some xaa /\
  nth_error buffer 5 = Some x10 /\
  6 <= List.length buffer.

(** A Reading is what the decoder returned for some frame at some time. *)
Definition decoded_by (cfg : config) (r : reading) : Prop :=
  exists now buffer, decode cfg now buffer = Ok r.

(** The entries of a Reading that stand for sensors: all but the fixed
    fields. *)
Definition sensor_entries (r : reading) : reading :=
  filter (fun e => negb (mem (fst e) fixed_fields)) r.

(** A sensor with its [type] replaced by [raw]. *)
Definition as_raw (s : sensor) : sensor :=
  {| sensor_description := sensor_description s;
     sensor_offset := sensor_offset s;
     sensor_size := sensor_size s;
     sensor_factor := sensor_factor s;
     sensor_position := sensor_position s;
     sensor_enabled := sensor_enabled s;
     sensor_type := "raw";
     sensor_metrics := sensor_metrics s |}.

(** The spec's account of the decoder's sensor part: one entry per schema
    sensor, in schema order, the first failing field decoder deciding the
    exception. *)
Fixpoint entries_in_schema_order (vbus_packet : packet) (sec : dict sensor)
  : result reading :=
  match sec with
  | [] => Ok []
  | (name, s) :: sec' =>
      v <- sensor_value vbus_packet s ;;
      es <- entries_in_schema_order vbus_packet sec' ;;
      Ok ((name, PyVal v) :: es)
  end.

(** The spec's three-line block for one sensor entry. *)
Definition three_lines (name description metricKind value_text : string)
  : string :=
  ("# HELP " ++ name ++ " " ++ description ++ LF ++
   "# TYPE " ++ name ++ " " ++ metricKind ++ LF ++
   name ++ " " ++ value_text ++ LF)%string.

Definition metric_block (cfg : config) (e : string * pyobj value) : string :=
  match dict_get (sensors cfg) (fst e) with
  | Some s =>
      three_lines (fst e) (sensor_description s) (sensor_metrics s)
        (str (snd e))
  | None => ""
  end.

(** The spec's account of the metrics text: the blocks of the sensor
    entries, in Reading order. *)
Definition exposition (cfg : config) (r : reading) : string :=
  fold_right append "" (map (metric_block cfg) (sensor_entries r)).

(** The four values of [type] that the dispatch names. *)
Definition known_types : list string := ["raw"; "temperature"; "bit"; "time"].

(** The configuration in which the sensor [name] has its [type] replaced
    by [raw] and everything else is as before. *)
Definition retype_as_raw (cfg : config) (name : string) : config :=
  match dict_get (sensors cfg) name with
  | Some s =>
      {| device_name := device_name cfg;
         sensors := dict_set (sensors cfg) name (as_raw s) |}
  | None => cfg
  end.

(** Two Readings with the same keys in the same order, and the same entry
    under each key but [timestamp]. *)
Definition agree_but_timestamp (r1 r2 : reading) : Prop :=
  dict_keys r1 = dict_keys r2 /\
  forall k, k <> "timestamp" -> dict_get r1 k = dict_get r2 k.

(** Two calls of the decoder that end alike: the same exception, or
    Readings that agree but for the timestamp. *)
Definition same_but_timestamp (o1 o2 : result reading) : Prop :=
  match o1, o2 with
  | Ok r1, Ok r2 => agree_but_timestamp r1 r2
  | Raise e1, Raise e2 => e1 = e2
  | _, _ => False
  end.

(** Two runs that did the same to the state and ended in the same way,
    but that, where the first ended at the end of the input, the second
    may have ended over the limit. *)
Definition same_but_last_read (r1 r2 : run) : Prop :=
  match r1, r2 with
  | Pending st1, Pending st2 => st1 = st2
  | Stopped e1 st1, Stopped e2 st2 =>
      st1 = st2 /\
      (e1 = e2 \/ (e1 = IncompleteReadError /\ e2 = LimitOverrunError))
  | _, _ => False
  end.

End Vocabulary.

(** ** A stand-in for the collaborators

    The theorems about the program hold for every instance of
    [Externals].  This module gives the interface one inhabitant, small
    enough to run, on which they are applied to concrete frames.
    Temperatures are kept as exact tenths in place of binary floats, and a
    packet is its buffer. *)
Module Sample.

Inductive number : Type :=
| Int (z : Z)
| Tenths (z : Z).

Definition decimal (z : Z) : string :=
  DecimalString.NilZero.string_of_int (Z.to_int z).

Definition show (n : number) : string :=
  match n with
  | Int z => decimal z
  | Tenths z =>
      ((if (z <? 0)%Z then "-" else "") ++ decimal (Z.abs z / 10)%Z ++ "." ++
       decimal (Z.abs z mod 10)%Z)%string
  end.

Fixpoint le_unsigned (bs : list byte) : Z :=
  match bs with
  | [] => 0%Z
  | b :: bs' => (Z.of_N (Byte.to_N b) + 256 * le_unsigned bs')%Z
  end.

Definition le_signed (bs : list byte) : Z :=
  let u := le_unsigned bs in
  let w := (8 * Z.of_nat (List.length bs))%Z in
  if (u <? 2 ^ (w - 1))%Z then u else (u - 2 ^ w)%Z.

Definition field (pkt : list byte) (offset size : Z) : result (list byte) :=
  if ((0 <=? offset) && (1 <=? size)
      && (offset + size <=? Z.of_nat (List.length pkt)))%Z
  then Ok (firstn (Z.to_nat size) (skipn (Z.to_nat offset) pkt))
  else Raise IndexError.

Definition quote (s : string) : string :=
  (String (ascii_of_nat 34) s ++ String (ascii_of_nat 34) "")%string.

Definition dumps_entry (e : string * pyobj number) : string :=
  (quote (fst e) ++ ": " ++
   match snd e with
   | PyStr s => quote s
   | PyVal n => show n
   end)%string.

Definition dumps (d : dict (pyobj number)) : string :=
  ("{" ++ String.concat ", " (map dumps_entry d) ++ "}")%string.

#[export] Instance externals : Externals := {|
  value := number;
  packet := list byte;
  VBUSPacket := fun buffer => Ok buffer;
  GetRawValue := fun pkt offset size =>
    bs <- field pkt offset size ;; Ok (Int (le_signed bs));
  GetTemperatureValue := fun pkt offset size _ =>
    bs <- field pkt offset size ;; Ok (Tenths (le_signed bs));
  GetBitValue := fun pkt offset position =>
    bs <- field pkt offset 1 ;;
    Ok (Int (Z.b2z (Z.testbit (le_unsigned bs) position)));
  GetTimeValue := fun pkt offset size =>
    bs <- field pkt offset size ;; Ok (Int (le_unsigned bs));
  str_value := show;
  json_dumps := dumps
|}.

Definition a_sensor (type : string) (offset size : Z) (enabled : bool)
  : sensor :=
  {| sensor_description := "description";
     sensor_offset := offset;
     sensor_size := size;
     sensor_factor := 0x1.999999999999ap-4%float;
     sensor_position := 0;
     sensor_enabled := enabled;
     sensor_type := type;
     sensor_metrics := "gauge" |}.

(** A raw configuration with one disabled sensor among three. *)
Definition raw_config : config :=
  {| device_name := "unknown";
     sensors := [("packetLen", a_sensor "raw" 1 1 true);
                 ("pump", a_sensor "bit" 9 1 false);
                 ("temp1", a_sensor "temperature" 10 2 true)] |}.

(** The same after [parse_config]. *)
Definition active_config : config :=
  {| device_name := "unknown";
     sensors := [("packetLen", a_sensor "raw" 1 1 true);
                 ("temp1", a_sensor "temperature" 10 2 true)] |}.

Definition noon : string := "2020-06-01T12:00:00+01:00".

(** A frame whose bytes 8 and 9 hold 453, little endian, and a schema that
    reads them as the collector temperature, in tenths of a degree. *)
Definition collector_frame : list byte :=
  [xaa; x10; x00; x78; x42; x10; x00; x01; xc5; x01].

Definition collector_config : config :=
  {| device_name := "unknown";
     sensors := [("temp1",
                  {| sensor_description := "Collector Temperature";
                     sensor_offset := 8;
                     sensor_size := 2;
                     sensor_factor := 0x1.999999999999ap-4%float;
                     sensor_position := 0;
                     sensor_enabled := true;
                     sensor_type := "temperature";
                     sensor_metrics := "gauge" |})] |}.

(** A schema whose one sensor takes the name of a fixed field. *)
Definition clash_config : config :=
  {| device_name := "unknown";
     sensors := [("timestamp", a_sensor "raw" 1 1 true)] |}.

(** A schema whose one sensor has a [type] that the dispatch does not name. *)
Definition odd_config : config :=
  {| device_name := "unknown";
     sensors := [("flow", a_sensor "pressure" 1 1 true)] |}.

(** A raw configuration with every sensor disabled. *)
Definition idle_config : config :=
  {| device_name := "unknown";
     sensors := [("packetLen", a_sensor "raw" 1 1 false);
                 ("pump", a_sensor "bit" 9 1 false)] |}.

(** A pending input with two good frames: that of [dummy_serial] and
    [collector_frame], then three bytes of a frame still on its way. *)
Definition two_frames : list byte :=
  [x01; x34] ++ dummy_buffer ++ collector_frame ++ [xaa; x10; x00; x78].

(** One byte more than the limit of the stream, none of them the
    delimiter. *)
Definition long_junk : list byte := List.repeat x00 (N.to_nat 65537).

(** A pending input: the tail of a frame, a candidate of five bytes, then
    the frame of [dummy_serial] and the start of the next. *)
Definition short_stream : list byte :=
  [x01; x34; xaa; x10; x00; x78; x42; xaa] ++ List.tl dummy_buffer ++ [xaa].

End Sample.

(** * Properties *)

(** ** Dictionaries *)

Section DictFacts.

Context {V : Type}.
Implicit Types (d : dict V) (k : string) (v : V).

Lemma mem_In k ks : mem k ks = true <-> In k ks.
Proof.
  unfold mem. rewrite existsb_exists. split.
  - intros [x [Hx Heq]]. apply String.eqb_eq in Heq. now subst.
  - intros H. exists k. split; [assumption | apply String.eqb_refl].
Qed.

Lemma mem_not_In k ks : mem k ks = false <-> ~ In k ks.
Proof.
  rewrite <- mem_In. destruct (mem k ks); split; congruence.
Qed.

Lemma dict_get_Some_In d k v : dict_get d k = Some v -> In (k, v) d.
Proof.
  induction d as [|[k' v'] d IH]; simpl; [discriminate|].
  destruct (String.eqb_spec k' k) as [->|Hne]; intros H.
  - injection H as ->. now left.
  - right. now apply IH.
Qed.

Lemma dict_get_None d k : dict_get d k = None <-> ~ In k (dict_keys d).
Proof.
  induction d as [|[k' v'] d IH]; simpl.
  - split; [intros _ []|reflexivity].
  - destruct (String.eqb_spec k' k) as [->|Hne].
    + split; [discriminate|intros H; exfalso; apply H; now left].
    + rewrite IH. split; [intros H [Heq|Hin]; tauto|tauto].
Qed.

Lemma dict_get_key d k : In k (dict_keys d) -> exists v, dict_get d k = Some v.
Proof.
  intros Hin. destruct (dict_get d k) as [v|] eqn:Hget.
  - now exists v.
  - apply dict_get_None in Hget. contradiction.
Qed.

(** In a well-formed dictionary an entry is what its key looks up. *)
Lemma dict_get_entry d k v : dict_ok d -> In (k, v) d -> dict_get d k = Some v.
Proof.
  unfold dict_ok.
  induction d as [|[k' v'] d IH]; simpl; intros Hok Hin; [contradiction|].
  inversion Hok as [|? ? Hnotin Hok']; subst.
  destruct Hin as [Heq|Hin].
  - injection Heq as -> ->. now rewrite String.eqb_refl.
  - destruct (String.eqb_spec k' k) as [->|Hne].
    + exfalso. apply Hnotin. change k with (fst (k, v)). now apply in_map.
    + now apply IH.
Qed.

Lemma dict_set_fresh d k v : ~ In k (dict_keys d) -> dict_set d k v = d ++ [(k, v)].
Proof.
  induction d as [|[k' v'] d IH]; simpl; intros Hnotin; [reflexivity|].
  destruct (String.eqb_spec k' k) as [->|Hne]; [tauto|].
  f_equal. apply IH. tauto.
Qed.

Lemma dict_set_keys_present d k v :
  In k (dict_keys d) -> dict_keys (dict_set d k v) = dict_keys d.
Proof.
  induction d as [|[k' v'] d IH]; simpl; intros Hin; [contradiction|].
  destruct (String.eqb_spec k' k) as [->|Hne]; [reflexivity|].
  simpl. f_equal. apply IH. destruct Hin; [contradiction|assumption].
Qed.

Lemma dict_set_keys d k v :
  dict_keys (dict_set d k v) =
  if mem k (dict_keys d) then dict_keys d else dict_keys d ++ [k].
Proof.
  destruct (mem k (dict_keys d)) eqn:Hmem.
  - apply dict_set_keys_present. now apply mem_In.
  - apply mem_not_In in Hmem. rewrite dict_set_fresh by assumption.
    unfold dict_keys. now rewrite map_app.
Qed.

Lemma dict_get_set d k v k' :
  dict_get (dict_set d k v) k' = if String.eqb k k' then Some v else dict_get d k'.
Proof.
  induction d as [|[k0 v0] d IH]; simpl.
  - reflexivity.
  - destruct (String.eqb_spec k0 k) as [->|Hne]; simpl.
    + destruct (String.eqb k k'); reflexivity.
    + rewrite IH. destruct (String.eqb_spec k0 k') as [->|Hne'].
      * destruct (String.eqb_spec k k'); [congruence|reflexivity].
      * reflexivity.
Qed.

Lemma dict_set_ok d k v : dict_ok d -> dict_ok (dict_set d k v).
Proof.
  unfold dict_ok. intros Hok. rewrite dict_set_keys.
  destruct (mem k (dict_keys d)) eqn:Hmem; [assumption|].
  apply mem_not_In in Hmem.
  apply NoDup_app; [assumption|repeat constructor; intros []|].
  intros x Hx [<-|[]]. contradiction.
Qed.

Lemma dict_set_keeps_keys d k v k' :
  In k' (dict_keys d) -> In k' (dict_keys (dict_set d k v)).
Proof.
  rewrite dict_set_keys. destruct (mem k (dict_keys d)); [tauto|].
  intros H. apply in_or_app. now left.
Qed.

Lemma dict_set_new_keys d k v k' :
  In k' (dict_keys (dict_set d k v)) -> In k' (dict_keys d) \/ k' = k.
Proof.
  rewrite dict_set_keys. destruct (mem k (dict_keys d)); [tauto|].
  intros H. apply in_app_or in H. destruct H as [H|[H|[]]]; auto.
Qed.

Lemma dict_pop_keys d k k' :
  In k' (dict_keys (dict_pop d k)) <-> In k' (dict_keys d) /\ k' <> k.
Proof.
  unfold dict_keys, dict_pop. rewrite !in_map_iff. split.
  - intros [[k0 v0] [Heq Hin]]. simpl in Heq. subst k0.
    apply filter_In in Hin. destruct Hin as [Hin Hneg]. simpl in Hneg.
    apply negb_true_iff, String.eqb_neq in Hneg. split; [|assumption].
    exists (k', v0). now split.
  - intros [[[k0 v0] [Heq Hin]] Hne]. simpl in Heq. subst k0.
    exists (k', v0). split; [reflexivity|]. apply filter_In. split; [assumption|].
    simpl. now apply negb_true_iff, String.eqb_neq.
Qed.

End DictFacts.

(** ** The byte source and the candidate frame *)

Lemma byte_eqb_refl (b : byte) : Byte.eqb b b = true.
Proof. now apply Byte.byte_dec_lb. Qed.

Lemma buffer_find_Some sep : forall buffer isep,
  buffer_find sep buffer = Some isep ->
  exists payload rest,
    buffer = payload ++ sep :: rest /\
    List.length payload = isep /\ ~ In sep payload.
Proof.
  induction buffer as [|b buffer IH]; simpl; intros isep H; [discriminate|].
  destruct (Byte.eqb b sep) eqn:Hb.
  - apply Byte.byte_dec_bl in Hb. subst b. injection H as <-.
    exists [], buffer. repeat split. intros [].
  - destruct (buffer_find sep buffer) as [i|]; [|discriminate].
    injection H as <-.
    destruct (IH i eq_refl) as [payload [rest [-> [<- Hnotin]]]].
    exists (b :: payload), rest. repeat split.
    intros [Heq|Hin]; [|contradiction].
    subst b. rewrite byte_eqb_refl in Hb. discriminate.
Qed.

Lemma buffer_find_None sep buffer :
  buffer_find sep buffer = None <-> ~ In sep buffer.
Proof.
  induction buffer as [|b buffer IH]; simpl.
  - split; [intros _ []|reflexivity].
  - destruct (Byte.eqb b sep) eqn:Hb.
    + apply Byte.byte_dec_bl in Hb. split; [discriminate|]. intros H.
      exfalso. apply H. now left.
    + destruct (buffer_find sep buffer) as [i|]; simpl.
      * split; [discriminate|]. intros H.
        assert (Hrest : ~ In sep buffer) by tauto.
        apply IH in Hrest. discriminate Hrest.
      * split; [|reflexivity]. intros _ [Heq|Hin].
        -- subst b. rewrite byte_eqb_refl in Hb. discriminate.
        -- now apply (proj1 IH).
Qed.

Lemma buffer_find_first sep junk rest :
  ~ In sep junk -> buffer_find sep (junk ++ sep :: rest) = Some (List.length junk).
Proof.
  induction junk as [|b junk IH]; simpl; intros Hnotin.
  - now rewrite byte_eqb_refl.
  - destruct (Byte.eqb b sep) eqn:Hb.
    + apply Byte.byte_dec_bl in Hb. tauto.
    + rewrite IH by tauto. reflexivity.
Qed.

Lemma firstn_past {A : Type} (p : list A) x r :
  firstn (List.length p + 1) (p ++ x :: r) = p ++ [x].
Proof. induction p as [|a p IH]; simpl; [reflexivity|now rewrite IH]. Qed.

Lemma skipn_past {A : Type} (p : list A) x r :
  skipn (List.length p + 1) (p ++ x :: r) = r.
Proof. induction p as [|a p IH]; simpl; [reflexivity|exact IH]. Qed.

(** What [readuntil] returns ends with the separator, holds it nowhere
    else, and is a prefix of the pending input. *)
Lemma readuntil_Ok sep stream read rest :
  readuntil sep stream = Ok (read, rest) ->
  exists payload,
    read = payload ++ [sep] /\ ~ In sep payload /\ stream = read ++ rest.
Proof.
  unfold readuntil. intros H.
  destruct (buffer_find sep stream) as [isep|] eqn:Hfind.
  - destruct (_DEFAULT_LIMIT <? N.of_nat isep)%N; [discriminate|].
    destruct (buffer_find_Some _ _ _ Hfind) as [payload [rest' [-> [<- Hnotin]]]].
    rewrite firstn_past, skipn_past in H. injection H as <- <-.
    exists payload. repeat split; [assumption|]. now rewrite <- app_assoc.
  - destruct (_DEFAULT_LIMIT <? N.of_nat (List.length stream))%N; discriminate.
Qed.

(** It returns no more bytes before the separator than the limit. *)
Lemma readuntil_within_limit sep stream read rest :
  readuntil sep stream = Ok (read, rest) ->
  (N.of_nat (List.length (removelast read)) <= _DEFAULT_LIMIT)%N.
Proof.
  unfold readuntil. intros H.
  destruct (buffer_find sep stream) as [isep|] eqn:Hfind.
  - destruct (N.ltb_spec _DEFAULT_LIMIT (N.of_nat isep)) as [|Hle]; [discriminate|].
    destruct (buffer_find_Some _ _ _ Hfind) as [payload [rest' [-> [<- Hnotin]]]].
    rewrite firstn_past in H. injection H as <- _.
    now rewrite removelast_last.
  - destruct (_DEFAULT_LIMIT <? N.of_nat (List.length stream))%N; discriminate.
Qed.

Lemma readuntil_shorter sep stream read rest :
  readuntil sep stream = Ok (read, rest) ->
  List.length rest < List.length stream.
Proof.
  intros H. destruct (readuntil_Ok _ _ _ _ H) as [payload [-> [_ ->]]].
  rewrite !length_app. simpl. lia.
Qed.

Lemma frame_buffer_length read :
  List.length (frame_buffer read) = List.length read.
Proof.
  unfold frame_buffer. rewrite length_firstn. simpl. lia.
Qed.

Lemma frame_buffer_last payload b : frame_buffer (payload ++ [b]) = xaa :: payload.
Proof.
  unfold frame_buffer.
  replace (List.length (xaa :: payload ++ [b]) - 1) with (S (List.length payload))
    by (simpl; rewrite length_app; simpl; lia).
  rewrite firstn_cons. f_equal.
  rewrite firstn_app, firstn_all, Nat.sub_diag. simpl. apply app_nil_r.
Qed.

Lemma frame_buffer_head read :
  1 <= List.length read -> nth_error (frame_buffer read) 0 = Some xaa.
Proof.
  unfold frame_buffer. destruct read; simpl; [lia|reflexivity].
Qed.

(** ** The validation of line 64 *)

Lemma frame_check_short buffer :
  List.length buffer < 5 -> frame_check buffer = Ok false.
Proof.
  intros H. unfold frame_check.
  destruct (Nat.leb_spec 5 (List.length buffer)); [lia|reflexivity].
Qed.

Lemma frame_check_long buffer :
  6 <= List.length buffer ->
  exists b, nth_error buffer 5 = Some b /\ frame_check buffer = Ok (Byte.eqb b x10).
Proof.
  intros H. unfold frame_check.
  destruct (Nat.leb_spec 5 (List.length buffer)); [|lia].
  destruct (nth_error buffer 5) as [b|] eqn:Hnth.
  - now exists b.
  - apply nth_error_None in Hnth. lia.
Qed.

Lemma frame_check_true buffer :
  frame_check buffer = Ok true ->
  nth_error buffer 5 = Some x10 /\ 6 <= List.length buffer.
Proof.
  unfold frame_check.
  destruct (5 <=? List.length buffer)%nat; [|discriminate].
  destruct (nth_error buffer 5) as [b|] eqn:Hnth; [|discriminate].
  intros H. injection H as H. apply Byte.byte_dec_bl in H. subst b.
  split; [reflexivity|].
  assert (5 < List.length buffer); [|lia].
  apply nth_error_Some. congruence.
Qed.

Section ReaderFacts.

Context {E : Externals}.
Variables (cfg : config) (clock : nat -> string).

(** What every pass through lines 64-66 preserves, on the candidates that
    the byte source can give, holds throughout a run. *)
Lemma loop_invariant (I : state -> Prop) :
  (forall payload st, ~ In xaa payload -> I st ->
     I (after (process cfg clock (xaa :: payload) st))) ->
  forall fuel stream st, I st -> I (state_of (loop cfg clock fuel stream st)).
Proof.
  intros Hstep.
  induction fuel as [|fuel IH]; simpl; intros stream st Hst; [assumption|].
  destruct (readuntil xaa stream) as [[read rest]|e] eqn:Hread; [|assumption].
  destruct (readuntil_Ok _ _ _ _ Hread) as [payload [-> [Hpayload _]]].
  rewrite frame_buffer_last.
  specialize (Hstep payload st Hpayload Hst).
  destruct (process cfg clock (xaa :: payload) st) as [st'|e st']; simpl in *;
    [now apply IH|assumption].
Qed.

Lemma data_received_invariant (I : state -> Prop) :
  (forall payload st, ~ In xaa payload -> I st ->
     I (after (process cfg clock (xaa :: payload) st))) ->
  forall fuel r st, I st -> I (state_of (data_received cfg clock fuel r st)).
Proof.
  intros Hstep fuel r st Hst. unfold data_received.
  destruct (readuntil xaa r) as [[read rest]|e]; [|assumption].
  now apply loop_invariant.
Qed.

(** The decoder is only ever called on buffers that passed the check. *)
Lemma process_calls (P : list byte -> Prop) buffer st :
  (frame_check buffer = Ok true -> P buffer) ->
  Forall P (decoder_calls st) ->
  Forall P (decoder_calls (after (process cfg clock buffer st))).
Proof.
  intros HP Hst. unfold process.
  destruct (frame_check buffer) as [[|]|e]; simpl; try assumption.
  destruct (decode cfg _ buffer); simpl;
    (apply Forall_app; split; [assumption|]; constructor; [now apply HP|constructor]).
Qed.

(** The global only ever holds what the decoder returned. *)
Lemma process_store buffer st :
  (forall r, parsed_datagram st = Some r -> decoded_by cfg r) ->
  forall r, parsed_datagram (after (process cfg clock buffer st)) = Some r ->
            decoded_by cfg r.
Proof.
  intros Hst r. unfold process.
  destruct (frame_check buffer) as [[|]|e]; simpl; try apply Hst.
  destruct (decode cfg _ buffer) as [r'|e] eqn:Hdec; simpl; [|apply Hst].
  intros H. injection H as <-. unfold decoded_by. eauto.
Qed.

Lemma data_received_store fuel r :
  forall rd,
    parsed_datagram (state_of (data_received cfg clock fuel r initial)) = Some rd ->
    decoded_by cfg rd.
Proof.
  apply (data_received_invariant
           (fun st => forall rd, parsed_datagram st = Some rd -> decoded_by cfg rd)).
  - intros payload st _ Hst. now apply process_store.
  - simpl. discriminate.
Qed.

Lemma dummy_serial_store now st st' :
  dummy_serial cfg now st = Ok st' ->
  forall rd, parsed_datagram st' = Some rd -> decoded_by cfg rd.
Proof.
  unfold dummy_serial. intros H rd Hrd.
  destruct (decode cfg now dummy_buffer) as [r|e] eqn:Hdec; [|discriminate].
  injection H as <-. simpl in Hrd. injection Hrd as <-.
  unfold decoded_by. eauto.
Qed.

(** No buffer given to the decoder holds the delimiter past its first
    byte. *)
Lemma data_received_calls_delimited fuel r :
  Forall (fun buffer => exists payload,
            buffer = xaa :: payload /\ ~ In xaa payload)
         (decoder_calls (state_of (data_received cfg clock fuel r initial))).
Proof.
  apply (data_received_invariant
           (fun st => Forall (fun buffer => exists payload,
                                buffer = xaa :: payload /\ ~ In xaa payload)
                             (decoder_calls st))).
  - intros payload st Hpayload Hst. apply process_calls; [|assumption].
    intros _. now exists payload.
  - constructor.
Qed.

(** With more fuel than pending bytes the loop runs to its exception. *)
Lemma loop_stops fuel : forall stream st,
  List.length stream < fuel ->
  exists e st', loop cfg clock fuel stream st = Stopped e st'.
Proof.
  induction fuel as [|fuel IH]; simpl; intros stream st Hlen; [lia|].
  destruct (readuntil xaa stream) as [[read rest]|e] eqn:Hread; [|now eauto].
  apply readuntil_shorter in Hread.
  destruct (process cfg clock (frame_buffer read) st) as [st'|e st']; [|now eauto].
  apply IH. lia.
Qed.

(** The assignments of the global are the decoder calls that returned. *)
Lemma loop_writes fuel : forall stream st,
  store_writes st = List.length (decoder_calls st) ->
  match loop cfg clock fuel stream st with
  | Pending st' => store_writes st' = List.length (decoder_calls st')
  | Stopped _ st' =>
      store_writes st' = List.length (decoder_calls st') \/
      S (store_writes st') = List.length (decoder_calls st')
  end.
Proof.
  induction fuel as [|fuel IH]; simpl; intros stream st Hst; [assumption|].
  destruct (readuntil xaa stream) as [[read rest]|e]; [|now left].
  unfold process.
  destruct (frame_check (frame_buffer read)) as [[|]|e]; [| apply IH; assumption | now left].
  destruct (decode cfg _ (frame_buffer read)).
  - apply IH. simpl. rewrite length_app. simpl. lia.
  - right. simpl. rewrite length_app. simpl. lia.
Qed.

End ReaderFacts.

(** ** The decoder *)

Section DecoderFacts.

Context {E : Externals}.

Lemma bind_Ok {A B : Type} (c : result A) (k : A -> result B) (b : B) :
  bind c k = Ok b -> exists a, c = Ok a /\ k a = Ok b.
Proof.
  destruct c as [a|e]; simpl; [now eauto|discriminate].
Qed.

(** Where no sensor name is already a key, the loop appends one entry per
    sensor, in the order of the schema. *)
Lemma parse_sensors_in_order cfg pkt : forall sec datagram,
  (forall k s, In (k, s) sec -> dict_get (sensors cfg) k = Some s) ->
  NoDup (dict_keys sec) ->
  (forall k, In k (dict_keys sec) -> ~ In k (dict_keys datagram)) ->
  parse_sensors cfg pkt (dict_keys sec) datagram =
  (es <- entries_in_schema_order pkt sec ;; Ok (datagram ++ es)).
Proof.
  induction sec as [|[name s] sec IH]; simpl; intros datagram Hget Hnd Hfresh.
  - now rewrite app_nil_r.
  - rewrite (Hget name s) by now left.
    destruct (sensor_value pkt s) as [v|e]; simpl; [|reflexivity].
    inversion Hnd as [|? ? Hnotin Hnd']; subst.
    rewrite dict_set_fresh by (apply Hfresh; now left).
    rewrite IH; try assumption.
    + destruct (entries_in_schema_order pkt sec) as [es|e]; simpl; [|reflexivity].
      now rewrite <- app_assoc.
    + intros k s' Hin. apply Hget. now right.
    + intros k Hin Hk. unfold dict_keys in Hk. rewrite map_app in Hk.
      apply in_app_or in Hk. destruct Hk as [Hk|[<-|[]]].
      * apply (Hfresh k); [now right|assumption].
      * contradiction.
Qed.

(** The entries of the spec's account: the schema's names in order, each
    with what its field decoder returned. *)
Lemma entries_in_schema_order_Ok pkt : forall sec es,
  entries_in_schema_order pkt sec = Ok es ->
  dict_keys es = dict_keys sec /\
  Forall2 (fun e c => fst e = fst c /\
             exists v, snd e = PyVal v /\ sensor_value pkt (snd c) = Ok v)
          es sec.
Proof.
  induction sec as [|[name s] sec IH]; simpl; intros es H.
  - injection H as <-. split; [reflexivity|constructor].
  - apply bind_Ok in H. destruct H as [v [Hv H]].
    apply bind_Ok in H. destruct H as [es' [Hes H]].
    injection H as <-. destruct (IH es' Hes) as [Hkeys Hall].
    split; [simpl; now f_equal|].
    constructor; [|assumption]. simpl. split; [reflexivity|now exists v].
Qed.

(** It returns as soon as every field decoder does. *)
Lemma entries_in_schema_order_total pkt : forall sec,
  (forall k s, In (k, s) sec -> exists v, sensor_value pkt s = Ok v) ->
  exists es, entries_in_schema_order pkt sec = Ok es.
Proof.
  induction sec as [|[name s] sec IH]; simpl; intros Hall; [now eauto|].
  destruct (Hall name s) as [v ->]; [now left|]. simpl.
  destruct IH as [es ->]; [intros k s' Hin; apply (Hall k s'); now right|].
  simpl. eauto.
Qed.

(** Whatever the names, the loop keeps the dictionary well formed and
    adds no key but sensor names. *)
Lemma parse_sensors_keys cfg pkt : forall keys datagram r,
  parse_sensors cfg pkt keys datagram = Ok r ->
  (dict_ok datagram -> dict_ok r) /\
  (forall k, In k (dict_keys r) -> In k (dict_keys datagram) \/ In k keys) /\
  (forall k, In k (dict_keys datagram) -> In k (dict_keys r)).
Proof.
  induction keys as [|name keys IH]; simpl; intros datagram r H.
  - injection H as <-. repeat split; auto.
  - destruct (dict_get (sensors cfg) name) as [s|]; [|discriminate].
    apply bind_Ok in H. destruct H as [v [_ H]].
    destruct (IH _ _ H) as [Hok [Hnew Hold]]. repeat split.
    + intros Hd. apply Hok. now apply dict_set_ok.
    + intros k Hk. destruct (Hnew k Hk) as [Hin|Hin]; [|now auto].
      apply dict_set_new_keys in Hin. destruct Hin as [Hin| ->]; auto.
    + intros k Hk. apply Hold. now apply dict_set_keeps_keys.
Qed.

Lemma decode_unfold cfg now buffer :
  decode cfg now buffer =
  (vbus_packet <- VBUSPacket buffer ;;
   parse_sensors cfg vbus_packet (dict_keys (sensors cfg))
     [("device", PyStr (device_name cfg)); ("timestamp", PyStr now)]).
Proof.
  unfold decode, ParseVbusPacket.
  destruct (VBUSPacket buffer) as [pkt|e]; simpl; [|reflexivity].
  destruct (parse_sensors cfg pkt (dict_keys (sensors cfg)) _); reflexivity.
Qed.

(** A Reading is a well-formed dictionary whose keys are the two fixed
    fields and names of the schema. *)
Lemma decoded_keys cfg r :
  decoded_by cfg r ->
  dict_ok r /\
  (forall k, In k (dict_keys r) ->
     In k fixed_fields \/ In k (dict_keys (sensors cfg))).
Proof.
  intros [now [buffer H]]. rewrite decode_unfold in H.
  apply bind_Ok in H. destruct H as [pkt [_ H]].
  destruct (parse_sensors_keys _ _ _ _ _ H) as [Hok [Hnew _]]. split.
  - apply Hok. unfold dict_ok. simpl.
    repeat constructor; simpl; intuition discriminate.
  - exact Hnew.
Qed.

End DecoderFacts.

(** *** The decoder and the clock *)

Section ClockFacts.

Context {E : Externals}.

Lemma dict_set_agree (r1 r2 : reading) k v :
  agree_but_timestamp r1 r2 ->
  agree_but_timestamp (dict_set r1 k v) (dict_set r2 k v).
Proof.
  intros [Hkeys Hget]. split.
  - rewrite !dict_set_keys, Hkeys. reflexivity.
  - intros k' Hk'. rewrite !dict_get_set.
    destruct (String.eqb k k'); [reflexivity|now apply Hget].
Qed.

Lemma parse_sensors_agree cfg pkt : forall keys d1 d2,
  agree_but_timestamp d1 d2 ->
  same_but_timestamp (parse_sensors cfg pkt keys d1)
                     (parse_sensors cfg pkt keys d2).
Proof.
  induction keys as [|name keys IH]; simpl; intros d1 d2 Hagree; [assumption|].
  destruct (dict_get (sensors cfg) name) as [s|]; simpl; [|reflexivity].
  destruct (sensor_value pkt s) as [v|e]; simpl; [|reflexivity].
  apply IH. now apply dict_set_agree.
Qed.

End ClockFacts.

(** *** Unrecognised types *)

Section TypeFacts.

Context {E : Externals}.

Lemma sensor_value_unknown pkt s :
  mem (sensor_type s) known_types = false ->
  sensor_value pkt s = GetRawValue pkt (sensor_offset s) (sensor_size s).
Proof.
  unfold mem, known_types, sensor_value. simpl.
  destruct (String.eqb_spec (sensor_type s) "raw"); [discriminate|].
  destruct (String.eqb_spec (sensor_type s) "temperature"); [discriminate|].
  destruct (String.eqb_spec (sensor_type s) "bit"); [discriminate|].
  destruct (String.eqb_spec (sensor_type s) "time"); [discriminate|].
  reflexivity.
Qed.

Lemma sensor_value_raw pkt s :
  sensor_type s = "raw" ->
  sensor_value pkt s = GetRawValue pkt (sensor_offset s) (sensor_size s).
Proof.
  unfold sensor_value. now intros ->.
Qed.

Lemma parse_sensors_retyped cfg pkt name s :
  dict_get (sensors cfg) name = Some s ->
  mem (sensor_type s) known_types = false ->
  forall keys datagram,
    parse_sensors (retype_as_raw cfg name) pkt keys datagram =
    parse_sensors cfg pkt keys datagram.
Proof.
  intros Hget Hunknown. unfold retype_as_raw. rewrite Hget.
  induction keys as [|k keys IH]; simpl; intros datagram; [reflexivity|].
  rewrite dict_get_set.
  destruct (String.eqb_spec name k) as [<-|Hne].
  - rewrite Hget.
    rewrite (sensor_value_raw pkt (as_raw s)) by reflexivity.
    rewrite (sensor_value_unknown pkt s) by assumption. simpl.
    destruct (GetRawValue pkt (sensor_offset s) (sensor_size s)); simpl;
      [apply IH|reflexivity].
  - destruct (dict_get (sensors cfg) k) as [s'|]; [|reflexivity].
    destruct (sensor_value pkt s'); simpl; [apply IH|reflexivity].
Qed.

End TypeFacts.

(** ** The schema filter *)

Lemma filter_twice {A : Type} (f g : A -> bool) (l : list A) :
  filter f (filter g l) = filter (fun x => g x && f x) l.
Proof.
  induction l as [|a l IH]; simpl; [reflexivity|].
  destruct (g a); simpl; [destruct (f a)|]; now rewrite IH.
Qed.

Lemma dict_filter_ok {V : Type} (f : string * V -> bool) (d : dict V) :
  dict_ok d -> dict_ok (filter f d).
Proof.
  unfold dict_ok, dict_keys.
  induction d as [|[k v] d IH]; simpl; intros Hok; [constructor|].
  inversion Hok as [|? ? Hnotin Hok']; subst.
  destruct (f (k, v)); simpl; [|now apply IH].
  constructor; [|now apply IH].
  intros Hin. apply Hnotin. apply in_map_iff in Hin.
  destruct Hin as [e [Heq Hin]]. apply filter_In in Hin.
  apply in_map_iff. exists e. tauto.
Qed.

(** Visiting a snapshot of distinct keys, all of them still present, the
    loop returns the section without its disabled sensors among them. *)
Lemma discard_disabled_filter : forall keys sec,
  dict_ok sec -> NoDup keys -> incl keys (dict_keys sec) ->
  discard_disabled keys sec =
  Ok (filter (fun e => negb (mem (fst e) keys) || sensor_enabled (snd e)) sec).
Proof.
  induction keys as [|k keys IH]; simpl; intros sec Hok Hnd Hincl.
  - f_equal. unfold mem. simpl. clear Hok Hincl.
    induction sec as [|a sec IHs]; simpl; [reflexivity|now rewrite <- IHs].
  - inversion Hnd as [|? ? Hnotin Hnd']; subst.
    destruct (dict_get_key sec k) as [s Hget]; [apply Hincl; now left|].
    rewrite Hget.
    assert (Hentry : forall e, In e sec -> fst e = k -> snd e = s).
    { intros [k' s'] Hin Heq. simpl in *. subst k'.
      pose proof (dict_get_entry _ _ _ Hok Hin). congruence. }
    destruct (sensor_enabled s) eqn:Hen; simpl.
    + rewrite IH; try assumption.
      * f_equal. apply filter_ext_in. intros e Hin.
        unfold mem. simpl. fold (mem (fst e) keys).
        destruct (String.eqb_spec (fst e) k) as [Heq|Hne]; simpl; [|reflexivity].
        rewrite (Hentry e Hin Heq), Hen. now rewrite !orb_true_r.
      * intros k' Hk'. apply Hincl. now right.
    + rewrite IH; try assumption.
      * f_equal. unfold dict_pop. rewrite filter_twice.
        apply filter_ext_in. intros e Hin.
        unfold mem. simpl. fold (mem (fst e) keys).
        destruct (String.eqb_spec (fst e) k) as [Heq|Hne]; simpl; [|reflexivity].
        now rewrite (Hentry e Hin Heq), Hen.
      * now apply dict_filter_ok.
      * intros k' Hk'. apply dict_pop_keys. split.
        -- apply Hincl. now right.
        -- intros ->. contradiction.
Qed.

Lemma parse_config_filter raw :
  dict_ok (sensors raw) ->
  parse_config raw =
  Ok {| device_name := device_name raw;
        sensors := filter (fun e => sensor_enabled (snd e)) (sensors raw) |}.
Proof.
  intros Hok. unfold parse_config.
  rewrite discard_disabled_filter; [|assumption|exact Hok|apply incl_refl].
  simpl. do 2 f_equal. apply filter_ext_in. intros e Hin.
  assert (mem (fst e) (dict_keys (sensors raw)) = true) as ->; [|reflexivity].
  apply mem_In. now apply in_map.
Qed.

(** ** The publishers *)

Lemma append_assoc (a b c : string) : ((a ++ b) ++ c = a ++ (b ++ c))%string.
Proof.
  induction a as [|x a IH]; simpl; [reflexivity|now rewrite IH].
Qed.

Lemma append_empty_r (a : string) : (a ++ "" = a)%string.
Proof.
  induction a as [|x a IH]; simpl; [reflexivity|now rewrite IH].
Qed.

Section PublisherFacts.

Context {E : Externals}.

(** Over keys that the Reading and the schema can both look up, the loop
    of lines 162-168 appends the blocks of the sensor entries. *)
Lemma metrics_text_blocks cfg (r : reading) : forall (es : reading) response,
  (forall e, In e es -> dict_get r (fst e) = Some (snd e)) ->
  (forall e, In e es -> mem (fst e) fixed_fields = false ->
     In (fst e) (dict_keys (sensors cfg))) ->
  metrics_text cfg r (dict_keys es) response =
  Ok (response ++
      fold_right append "" (map (metric_block cfg) (sensor_entries es)))%string.
Proof.
  induction es as [|e es IH]; intros response Hget Hcfg.
  - simpl. now rewrite append_empty_r.
  - change (dict_keys (e :: es)) with (fst e :: dict_keys es).
    cbn [metrics_text]. unfold sensor_entries. cbn [filter].
    fold (sensor_entries es).
    destruct (mem (fst e) fixed_fields) eqn:Hfixed; cbn [negb map fold_right].
    + apply IH; intros e' Hin; [apply Hget|apply Hcfg]; now right.
    + destruct (dict_get_key (sensors cfg) (fst e)) as [s Hs];
        [apply Hcfg; [now left|assumption]|].
      rewrite Hs, (Hget e) by now left.
      rewrite IH by (intros e' Hin; first [apply Hget|apply Hcfg]; now right).
      unfold metric_block at 2. rewrite Hs. unfold three_lines.
      now rewrite append_assoc.
Qed.

(** On a Reading the metrics handler answers with the spec's text. *)
Lemma prometheus_handler_decoded cfg r :
  decoded_by cfg r ->
  prometheus_handler cfg (Some r) = Response (exposition cfg r).
Proof.
  intros Hdec. destruct (decoded_keys cfg r Hdec) as [Hok Hkeys].
  unfold prometheus_handler, exposition.
  rewrite (metrics_text_blocks cfg r r ""); [reflexivity| |].
  - intros [k v] Hin. now apply dict_get_entry.
  - intros e Hin Hfixed. destruct (Hkeys (fst e)) as [Hf|Hs].
    + now apply in_map.
    + apply mem_In in Hf. congruence.
    + assumption.
Qed.

(** The names under which the metrics text has a block. *)
Lemma sensor_entries_keys (r : reading) k :
  In k (dict_keys (sensor_entries r)) <->
  In k (dict_keys r) /\ ~ In k fixed_fields.
Proof.
  unfold sensor_entries, dict_keys. rewrite !in_map_iff. split.
  - intros [e [<- Hin]]. apply filter_In in Hin. destruct Hin as [Hin Hf].
    apply negb_true_iff, mem_not_In in Hf. split; [|assumption].
    now exists e.
  - intros [[e [<- Hin]] Hf]. exists e. split; [reflexivity|].
    apply filter_In. split; [assumption|].
    now apply negb_true_iff, mem_not_In.
Qed.

End PublisherFacts.

Lemma distinct_NoDup ks : distinct ks = true -> NoDup ks.
Proof.
  induction ks as [|k ks IH]; simpl; intros H; [constructor|].
  apply andb_true_iff in H. destruct H as [Hk Hks].
  constructor; [|now apply IH].
  apply negb_true_iff in Hk. now apply (mem_not_In k ks).
Qed.

(** * The claims of the specification *)

Section FrameReader.

Context {E : Externals}.
Variables (cfg : config) (clock : nat -> string).

(** C1, as the code has it.  The spec wants every candidate shorter than
    6 bytes dropped without error.  Line 64 tests [len(buffer) >= 5], so a
    candidate of exactly 5 bytes goes on to [buffer[5]], which raises
    IndexError: the decoder is not called, but the exception leaves the
    coroutine and the loop does not continue, whatever follows on the
    line. *)
Theorem five_byte_candidate_raises (fuel : nat) (rest : list byte) :
  frame_buffer [x10; x00; x78; x42; xaa] = [xaa; x10; x00; x78; x42] /\
  process cfg clock [xaa; x10; x00; x78; x42] initial =
    Abort IndexError initial /\
  data_received cfg clock (S fuel)
    ([x01; x34; xaa; x10; x00; x78; x42; xaa] ++ rest) initial =
    Stopped IndexError initial.
Proof.
  repeat split.
Qed.

(** Lines 64-66 on a candidate of at least 6 bytes: the check is that of
    byte 5, and the assignment is made where the decoder returns. *)
Lemma process_on_long_candidate (buffer : list byte) (st : state) :
  6 <= List.length buffer ->
  (nth_error buffer 5 <> Some x10 ->
     process cfg clock buffer st = Continue st) /\
  (nth_error buffer 5 = Some x10 ->
     match decode cfg (clock (List.length (decoder_calls st))) buffer with
     | Ok r =>
         process cfg clock buffer st =
         Continue {| parsed_datagram := Some r;
                     decoder_calls := decoder_calls st ++ [buffer];
                     store_writes := S (store_writes st) |}
     | Raise e =>
         process cfg clock buffer st =
         Abort e {| parsed_datagram := parsed_datagram st;
                    decoder_calls := decoder_calls st ++ [buffer];
                    store_writes := store_writes st |}
     end).
Proof.
  intros Hlen. destruct (frame_check_long buffer Hlen) as [b [Hb Hcheck]].
  unfold process. rewrite Hcheck, Hb. split.
  - intros Hne. destruct (Byte.eqb b x10) eqn:Heq; [|reflexivity].
    apply Byte.byte_dec_bl in Heq. congruence.
  - intros Heq. injection Heq as ->. rewrite byte_eqb_refl.
    destruct (decode cfg _ buffer); reflexivity.
Qed.

(** C2, amended.  In every iteration of the reader loop whose read gives
    a candidate of at least 6 bytes: if byte 5 of the candidate is not
    0x10 the candidate is dropped, with no decoder call and no
    assignment, and the loop goes on with the next read; if byte 5 is
    0x10 the decoder is called on the candidate, once, and then either it
    returns a Reading, which one assignment makes the new value of
    [parsed_datagram] before the loop goes on, or it raises, and then
    nothing is assigned and the exception ends the reader. *)
Theorem valid_frame_stored_when_decoded
  (fuel : nat) (stream read rest : list byte) (st : state) :
  readuntil xaa stream = Ok (read, rest) ->
  6 <= List.length (frame_buffer read) ->
  (nth_error (frame_buffer read) 5 <> Some x10 ->
     loop cfg clock (S fuel) stream st = loop cfg clock fuel rest st) /\
  (nth_error (frame_buffer read) 5 = Some x10 ->
     match decode cfg (clock (List.length (decoder_calls st)))
             (frame_buffer read) with
     | Ok r =>
         loop cfg clock (S fuel) stream st =
         loop cfg clock fuel rest
           {| parsed_datagram := Some r;
              decoder_calls := decoder_calls st ++ [frame_buffer read];
              store_writes := S (store_writes st) |}
     | Raise e =>
         loop cfg clock (S fuel) stream st =
         Stopped e {| parsed_datagram := parsed_datagram st;
                      decoder_calls := decoder_calls st ++ [frame_buffer read];
                      store_writes := store_writes st |}
     end).
Proof.
  intros Hread Hlen. cbn [loop]. rewrite Hread.
  destruct (process_on_long_candidate (frame_buffer read) st Hlen)
    as [Hdrop Hkeep].
  split; intros H5.
  - now rewrite (Hdrop H5).
  - specialize (Hkeep H5).
    destruct (decode cfg _ (frame_buffer read)); now rewrite Hkeep.
Qed.

(** C3.  Whatever one [readuntil(b'\xaa')] returns, the candidate built
    from it is 0xAA followed by the bytes read without their last one;
    that last byte is the delimiter, and the delimiter occurs nowhere in
    what is kept of the bytes read. *)
Theorem candidate_drops_trailing_delimiter (stream read rest : list byte) :
  readuntil xaa stream = Ok (read, rest) ->
  frame_buffer read = xaa :: removelast read /\
  read = removelast read ++ [xaa] /\
  ~ In xaa (removelast read).
Proof.
  intros H. destruct (readuntil_Ok _ _ _ _ H) as [payload [-> [Hpayload _]]].
  rewrite removelast_last, frame_buffer_last. auto.
Qed.

(** C10.  In every run of the reader from the initial state, each buffer
    given to the decoder has 0xAA at index 0 and 0x10 at index 5, hence at
    least 6 bytes. *)
Theorem decoder_calls_well_shaped (fuel : nat) (r : list byte) :
  Forall well_shaped
    (decoder_calls (state_of (data_received cfg clock fuel r initial))).
Proof.
  apply (data_received_invariant cfg clock
           (fun st => Forall well_shaped (decoder_calls st))).
  - intros payload st _ Hst. apply process_calls; [|assumption].
    intros Hcheck. apply frame_check_true in Hcheck.
    destruct Hcheck as [H5 Hlen]. repeat split; assumption.
  - constructor.
Qed.

End FrameReader.

Section FrameDecoder.

Context {E : Externals}.

(** C4.  A sensor whose [type] is none of raw, temperature, bit and time
    decodes, on every packet, to what a raw sensor with its offset and
    size decodes to; and the decoder gives the same outcome on every
    buffer when that sensor's [type] is replaced by raw in the schema. *)
Theorem unrecognised_type_decodes_as_raw
  (cfg : config) (name : string) (s : sensor) :
  dict_get (sensors cfg) name = Some s ->
  ~ In (sensor_type s) known_types ->
  (forall pkt s',
     sensor_type s' = "raw" ->
     sensor_offset s' = sensor_offset s ->
     sensor_size s' = sensor_size s ->
     sensor_value pkt s = sensor_value pkt s') /\
  (forall now buffer,
     decode cfg now buffer = decode (retype_as_raw cfg name) now buffer).
Proof.
  intros Hget Hunknown. apply mem_not_In in Hunknown. split.
  - intros pkt s' Htype Hoff Hsize.
    rewrite sensor_value_unknown by assumption.
    rewrite (sensor_value_raw pkt s') by assumption. congruence.
  - intros now buffer. rewrite !decode_unfold.
    destruct (VBUSPacket buffer) as [pkt|e]; simpl; [|reflexivity].
    rewrite (parse_sensors_retyped cfg pkt name s Hget Hunknown).
    unfold retype_as_raw. rewrite Hget. simpl.
    rewrite dict_set_keys_present; [reflexivity|].
    apply dict_get_Some_In in Hget. change name with (fst (name, s)).
    now apply in_map.
Qed.

(** C5, amended.  For an active schema in which no sensor is named
    [device] or [timestamp], the decoder raises what the packet class or
    the first failing field decoder raises, and otherwise returns the
    entries [device], [timestamp], then one entry per schema sensor in
    schema order, keyed by the sensor's name. *)
Theorem reading_entries_in_schema_order
  (cfg : config) (now : string) (buffer : list byte) :
  dict_ok (sensors cfg) ->
  (forall name, In name (dict_keys (sensors cfg)) -> ~ In name fixed_fields) ->
  decode cfg now buffer =
    (vbus_packet <- VBUSPacket buffer ;;
     es <- entries_in_schema_order vbus_packet (sensors cfg) ;;
     Ok (("device", PyStr (device_name cfg)) :: ("timestamp", PyStr now) :: es))
  /\
  (forall r, decode cfg now buffer = Ok r ->
     dict_keys r = "device" :: "timestamp" :: dict_keys (sensors cfg)).
Proof.
  intros Hok Hnames.
  assert (Heq : decode cfg now buffer =
    (vbus_packet <- VBUSPacket buffer ;;
     es <- entries_in_schema_order vbus_packet (sensors cfg) ;;
     Ok (("device", PyStr (device_name cfg)) :: ("timestamp", PyStr now) :: es))).
  { rewrite decode_unfold.
    destruct (VBUSPacket buffer) as [pkt|e]; simpl; [|reflexivity].
    rewrite parse_sensors_in_order.
    - reflexivity.
    - intros k s Hin. now apply dict_get_entry.
    - exact Hok.
    - intros k Hin Hk. apply (Hnames k Hin). simpl in Hk. simpl. tauto. }
  split; [exact Heq|].
  intros r Hr. rewrite Heq in Hr.
  apply bind_Ok in Hr. destruct Hr as [pkt [_ Hr]].
  apply bind_Ok in Hr. destruct Hr as [es [Hes Hr]].
  injection Hr as <-. apply entries_in_schema_order_Ok in Hes.
  destruct Hes as [Hkeys _]. simpl. now rewrite Hkeys.
Qed.

(** C9.  Two calls of the decoder with the same schema, device name and
    buffer, at whatever two times, end alike: both raise the same
    exception, or both return Readings with the same keys in the same
    order and the same entry under every key but [timestamp]. *)
Theorem decode_deterministic_but_timestamp
  (cfg : config) (buffer : list byte) (now1 now2 : string) :
  same_but_timestamp (decode cfg now1 buffer) (decode cfg now2 buffer).
Proof.
  rewrite !decode_unfold.
  destruct (VBUSPacket buffer) as [pkt|e]; simpl; [|reflexivity].
  apply parse_sensors_agree. split; [reflexivity|].
  intros k Hk. cbn [dict_get dict_set].
  destruct (String.eqb "device" k); [reflexivity|].
  destruct (String.eqb_spec "timestamp" k); [congruence|reflexivity].
Qed.

End FrameDecoder.

Section Publishers.

Context {E : Externals}.

(** C6.  Loading a raw configuration leaves exactly its enabled sensors,
    in their order.  A disabled sensor is then no key of the active
    schema, no sensor entry of any Reading, which is all the JSON
    publisher renders, and so heads no block of the metrics text. *)
Theorem disabled_sensors_never_published (raw : config) :
  dict_ok (sensors raw) ->
  exists cfg,
    parse_config raw = Ok cfg /\
    sensors cfg = filter (fun e => sensor_enabled (snd e)) (sensors raw) /\
    (forall name s, In (name, s) (sensors cfg) -> sensor_enabled s = true) /\
    (forall name s,
       In (name, s) (sensors raw) -> sensor_enabled s = false ->
       ~ In name (dict_keys (sensors cfg)) /\
       forall r, decoded_by cfg r ->
         ~ In name (dict_keys (sensor_entries r)) /\
         json_handler (Some r) = Response (json_dumps r) /\
         prometheus_handler cfg (Some r) = Response (exposition cfg r)).
Proof.
  intros Hok. eexists. split; [now apply parse_config_filter|]. simpl.
  split; [reflexivity|]. split.
  - intros name s Hin. apply filter_In in Hin. tauto.
  - intros name s Hin Hoff.
    assert (Hgone : ~ In name
              (dict_keys (filter (fun e => sensor_enabled (snd e)) (sensors raw)))).
    { intros Hk. unfold dict_keys in Hk. apply in_map_iff in Hk.
      destruct Hk as [[k s'] [Hname Hs']]. simpl in Hname. subst k.
      apply filter_In in Hs'. destruct Hs' as [Hs' Hon]. simpl in Hon.
      pose proof (dict_get_entry _ _ _ Hok Hin).
      pose proof (dict_get_entry _ _ _ Hok Hs'). congruence. }
    split; [exact Hgone|]. intros r Hr. repeat split.
    + intros Hk. apply sensor_entries_keys in Hk. destruct Hk as [Hk Hfree].
      destruct (decoded_keys _ _ Hr) as [_ Hkeys].
      destruct (Hkeys name Hk); [contradiction|]. now apply Hgone.
    + now apply prometheus_handler_decoded.
Qed.

(** C7.  While [parsed_datagram] is [None], a GET of [/] and a GET of
    [/metrics] both end in HTTPServiceUnavailable, status 503, no body;
    once it holds a Reading, both are answered with status 200, [/] with
    the JSON dump of the Reading and [/metrics] with its metrics text. *)
Theorem no_reading_503_reading_200 (cfg : config) (parsed : option reading) :
  (forall r, parsed = Some r -> decoded_by cfg r) ->
  exists json metrics,
    jsolar_app cfg parsed "/" = Some json /\
    jsolar_app cfg parsed "/metrics" = Some metrics /\
    match parsed with
    | None =>
        json = HTTPServiceUnavailable /\ metrics = HTTPServiceUnavailable /\
        status json = 503 /\ body json = None /\
        status metrics = 503 /\ body metrics = None
    | Some r =>
        status json = 200 /\ body json = Some (json_dumps r) /\
        status metrics = 200 /\ body metrics = Some (exposition cfg r)
    end.
Proof.
  intros Hstore.
  exists (json_handler parsed), (prometheus_handler cfg parsed).
  split; [reflexivity|]. split; [reflexivity|].
  destruct parsed as [r|]; [|repeat split].
  rewrite (prometheus_handler_decoded cfg r) by now apply Hstore.
  repeat split.
Qed.

(** C8.  On a Reading the metrics handler answers with, for each entry
    but [device] and [timestamp], in the order of the Reading, the three
    lines [# HELP name description], [# TYPE name metrics], [name value];
    a sensor temp1 described as Collector Temperature, of metric kind
    gauge, whose value prints as 45.3, gets exactly
    [# HELP temp1 Collector Temperature], [# TYPE temp1 gauge],
    [temp1 45.3]. *)
Theorem metrics_three_lines_per_sensor (cfg : config) (r : reading) :
  decoded_by cfg r ->
  prometheus_handler cfg (Some r) = Response (exposition cfg r) /\
  Forall (fun e => exists s,
            dict_get (sensors cfg) (fst e) = Some s /\
            metric_block cfg e =
            three_lines (fst e) (sensor_description s) (sensor_metrics s)
              (str (snd e)))
         (sensor_entries r) /\
  (forall s v,
     dict_get (sensors cfg) "temp1" = Some s ->
     sensor_description s = "Collector Temperature" ->
     sensor_metrics s = "gauge" ->
     str_value v = "45.3" ->
     metric_block cfg ("temp1", PyVal v) =
     ("# HELP temp1 Collector Temperature" ++ LF ++
      "# TYPE temp1 gauge" ++ LF ++
      "temp1 45.3" ++ LF)%string).
Proof.
  intros Hr. split; [now apply prometheus_handler_decoded|]. split.
  - apply Forall_forall. intros e He.
    destruct (decoded_keys _ _ Hr) as [_ Hkeys].
    assert (Hk : In (fst e) (dict_keys (sensor_entries r))) by now apply in_map.
    apply sensor_entries_keys in Hk. destruct Hk as [Hk Hfree].
    destruct (Hkeys _ Hk) as [Hf|Hs]; [contradiction|].
    destruct (dict_get_key _ _ Hs) as [s Hget].
    exists s. split; [assumption|]. unfold metric_block. now rewrite Hget.
  - intros s v Hget Hdesc Hkind Hstr. unfold metric_block. simpl fst.
    rewrite Hget, Hdesc, Hkind. simpl. now rewrite Hstr.
Qed.

End Publishers.

(** * The claims at concrete frames *)

Import Sample.

(** C2, amended, on the frame of [dummy_serial], 52 bytes with 0x10 at
    index 5, as the loop reads it. *)
Lemma valid_frame_stored_when_decoded_witness :
  readuntil xaa (List.tl dummy_buffer ++ [xaa; x10]) =
    Ok (List.tl dummy_buffer ++ [xaa], [x10]) /\
  6 <= List.length (frame_buffer (List.tl dummy_buffer ++ [xaa])) /\
  loop active_config (fun _ => noon) 1 (List.tl dummy_buffer ++ [xaa; x10])
    initial =
  loop active_config (fun _ => noon) 0 [x10]
    {| parsed_datagram :=
         Some [("device", PyStr "unknown"); ("timestamp", PyStr noon);
               ("packetLen", PyVal (Int 16)); ("temp1", PyVal (Tenths 57))];
       decoder_calls := [dummy_buffer];
       store_writes := 1 |}.
Proof.
  assert (H : 6 <= List.length (frame_buffer (List.tl dummy_buffer ++ [xaa])))
    by (apply Nat.leb_le; reflexivity).
  split; [reflexivity|]. split; [exact H|].
  exact (proj2 (valid_frame_stored_when_decoded active_config (fun _ => noon) 0
                  (List.tl dummy_buffer ++ [xaa; x10])
                  (List.tl dummy_buffer ++ [xaa]) [x10] initial eq_refl H)
               eq_refl).
Defined.

(** C2 as written fails on a frame that passes the check and that the
    decoder cannot read: [collector_frame] has 10 bytes and 0x10 at index
    5, and under a schema with a sensor at bytes 10 and 11 the decoder
    raises.  The reader calls the decoder and assigns nothing, and the
    good frame that follows is never read. *)
Lemma valid_frame_that_the_decoder_rejects :
  6 <= List.length collector_frame /\
  nth_error collector_frame 5 = Some x10 /\
  decode active_config noon collector_frame = Raise IndexError /\
  data_received active_config (fun _ => noon) 100
    (collector_frame ++ dummy_buffer ++ [xaa]) initial =
  Stopped IndexError {| parsed_datagram := None;
                        decoder_calls := [collector_frame];
                        store_writes := 0 |} /\
  ~ (forall (E : Externals) cfg clock fuel stream read rest st,
       readuntil xaa stream = Ok (read, rest) ->
       6 <= List.length (frame_buffer read) ->
       nth_error (frame_buffer read) 5 = Some x10 ->
       exists r,
         loop cfg clock (S fuel) stream st =
         loop cfg clock fuel rest
           {| parsed_datagram := Some r;
              decoder_calls := decoder_calls st ++ [frame_buffer read];
              store_writes := S (store_writes st) |}).
Proof.
  split; [apply Nat.leb_le; reflexivity|]. split; [reflexivity|].
  split; [reflexivity|]. split; [reflexivity|].
  intros H.
  destruct (H externals active_config (fun _ => noon) 0
              (List.tl collector_frame ++ [xaa])
              (List.tl collector_frame ++ [xaa]) [] initial
              eq_refl) as [r Hr].
  - apply Nat.leb_le. reflexivity.
  - reflexivity.
  - discriminate Hr.
Qed.

(** C3 on a read of three bytes. *)
Lemma candidate_drops_trailing_delimiter_witness :
  readuntil xaa [x10; x00; xaa; x01] = Ok ([x10; x00; xaa], [x01]) /\
  (frame_buffer [x10; x00; xaa] = xaa :: removelast [x10; x00; xaa] /\
   [x10; x00; xaa] = removelast [x10; x00; xaa] ++ [xaa] /\
   ~ In xaa (removelast [x10; x00; xaa])).
Proof.
  split; [reflexivity|].
  apply (candidate_drops_trailing_delimiter [x10; x00; xaa; x01]
           [x10; x00; xaa] [x01]).
  reflexivity.
Defined.

(** C4 on a sensor of [type] pressure. *)
Lemma unrecognised_type_decodes_as_raw_witness :
  dict_get (sensors odd_config) "flow" = Some (a_sensor "pressure" 1 1 true) /\
  ~ In (sensor_type (a_sensor "pressure" 1 1 true)) known_types /\
  ((forall pkt s',
      sensor_type s' = "raw" ->
      sensor_offset s' = sensor_offset (a_sensor "pressure" 1 1 true) ->
      sensor_size s' = sensor_size (a_sensor "pressure" 1 1 true) ->
      sensor_value pkt (a_sensor "pressure" 1 1 true) = sensor_value pkt s') /\
   (forall now buffer,
      decode odd_config now buffer =
      decode (retype_as_raw odd_config "flow") now buffer)).
Proof.
  assert (H : ~ In (sensor_type (a_sensor "pressure" 1 1 true)) known_types)
    by (apply mem_not_In; reflexivity).
  split; [reflexivity|]. split; [exact H|].
  exact (unrecognised_type_decodes_as_raw odd_config "flow"
           (a_sensor "pressure" 1 1 true) eq_refl H).
Defined.

Lemma active_config_names :
  forall name, In name (dict_keys (sensors active_config)) ->
               ~ In name fixed_fields.
Proof.
  intros name Hin. apply mem_not_In.
  destruct Hin as [<-|[<-|[]]]; reflexivity.
Qed.

(** C5, amended, on the frame of [dummy_serial]. *)
Lemma reading_entries_in_schema_order_witness :
  dict_ok (sensors active_config) /\
  (forall name, In name (dict_keys (sensors active_config)) ->
                ~ In name fixed_fields) /\
  (decode active_config noon dummy_buffer =
     (vbus_packet <- VBUSPacket dummy_buffer ;;
      es <- entries_in_schema_order vbus_packet (sensors active_config) ;;
      Ok (("device", PyStr (device_name active_config))
          :: ("timestamp", PyStr noon) :: es))
   /\
   (forall r, decode active_config noon dummy_buffer = Ok r ->
      dict_keys r = "device" :: "timestamp" :: dict_keys (sensors active_config))).
Proof.
  assert (Hok : dict_ok (sensors active_config))
    by (apply distinct_NoDup; reflexivity).
  split; [exact Hok|]. split; [exact active_config_names|].
  exact (reading_entries_in_schema_order active_config noon dummy_buffer
           Hok active_config_names).
Defined.

(** C5 as written fails on a sensor named [timestamp]: its value takes the
    place of the time, and no third entry is made. *)
Lemma sensor_named_timestamp_takes_its_place :
  dict_ok (sensors clash_config) /\
  decode clash_config noon dummy_buffer =
    Ok [("device", PyStr "unknown"); ("timestamp", PyVal (Int 16))] /\
  ~ (forall r, decode clash_config noon dummy_buffer = Ok r ->
       dict_keys r = "device" :: "timestamp" :: dict_keys (sensors clash_config)).
Proof.
  split; [apply distinct_NoDup; reflexivity|]. split; [reflexivity|].
  intros H. specialize (H _ eq_refl). discriminate H.
Qed.

(** Whatever the field decoders are, a Reading under that schema has the
    two fixed keys and no other. *)
Lemma clash_config_keys {E : Externals} now buffer (r : reading) :
  decode clash_config now buffer = Ok r ->
  dict_keys r = ["device"; "timestamp"].
Proof.
  rewrite decode_unfold. intros H.
  apply bind_Ok in H. destruct H as [pkt [_ H]].
  cbn [parse_sensors clash_config sensors dict_keys map fst dict_get] in H.
  rewrite String.eqb_refl in H.
  apply bind_Ok in H. destruct H as [v [_ H]].
  injection H as <-. reflexivity.
Qed.

(** C6 on a raw configuration with a disabled sensor. *)
Lemma disabled_sensors_never_published_witness :
  dict_ok (sensors raw_config) /\
  exists cfg,
    parse_config raw_config = Ok cfg /\
    sensors cfg = filter (fun e => sensor_enabled (snd e)) (sensors raw_config) /\
    (forall name s, In (name, s) (sensors cfg) -> sensor_enabled s = true) /\
    (forall name s,
       In (name, s) (sensors raw_config) -> sensor_enabled s = false ->
       ~ In name (dict_keys (sensors cfg)) /\
       forall r, decoded_by cfg r ->
         ~ In name (dict_keys (sensor_entries r)) /\
         json_handler (Some r) = Response (json_dumps r) /\
         prometheus_handler cfg (Some r) = Response (exposition cfg r)).
Proof.
  assert (Hok : dict_ok (sensors raw_config))
    by (apply distinct_NoDup; reflexivity).
  split; [exact Hok|].
  exact (disabled_sensors_never_published raw_config Hok).
Defined.

(** C7 with the Reading of the frame of [dummy_serial] in the store. *)
Lemma no_reading_503_reading_200_witness :
  let r := [("device", PyStr "unknown"); ("timestamp", PyStr noon);
            ("packetLen", PyVal (Int 16)); ("temp1", PyVal (Tenths 57))] in
  (forall r', Some r = Some r' -> decoded_by active_config r') /\
  exists json metrics,
    jsolar_app active_config (Some r) "/" = Some json /\
    jsolar_app active_config (Some r) "/metrics" = Some metrics /\
    status json = 200 /\ body json = Some (json_dumps r) /\
    status metrics = 200 /\ body metrics = Some (exposition active_config r).
Proof.
  intros r.
  assert (H : forall r', Some r = Some r' -> decoded_by active_config r').
  { intros r' Heq. injection Heq as <-. exists noon, dummy_buffer. reflexivity. }
  split; [exact H|].
  exact (no_reading_503_reading_200 active_config (Some r) H).
Defined.

(** C8 on a frame whose collector temperature is 45.3. *)
Lemma metrics_three_lines_per_sensor_witness :
  let r := [("device", PyStr "unknown"); ("timestamp", PyStr noon);
            ("temp1", PyVal (Tenths 453))] in
  decoded_by collector_config r /\
  (prometheus_handler collector_config (Some r) =
     Response (exposition collector_config r) /\
   Forall (fun e => exists s,
             dict_get (sensors collector_config) (fst e) = Some s /\
             metric_block collector_config e =
             three_lines (fst e) (sensor_description s) (sensor_metrics s)
               (str (snd e)))
          (sensor_entries r) /\
   (forall s v,
      dict_get (sensors collector_config) "temp1" = Some s ->
      sensor_description s = "Collector Temperature" ->
      sensor_metrics s = "gauge" ->
      str_value v = "45.3" ->
      metric_block collector_config ("temp1", PyVal v) =
      ("# HELP temp1 Collector Temperature" ++ LF ++
       "# TYPE temp1 gauge" ++ LF ++
       "temp1 45.3" ++ LF)%string)).
Proof.
  intros r.
  assert (H : decoded_by collector_config r)
    by (exists noon, collector_frame; reflexivity).
  split; [exact H|].
  exact (metrics_three_lines_per_sensor collector_config r H).
Defined.

(** The metrics scenario of the spec, run: the whole answer of the
    handler for that Reading. *)
Example metrics_scenario :
  prometheus_handler collector_config
    (Some [("device", PyStr "unknown"); ("timestamp", PyStr noon);
           ("temp1", PyVal (Tenths 453))]) =
  Response ("# HELP temp1 Collector Temperature" ++ LF ++
            "# TYPE temp1 gauge" ++ LF ++
            "temp1 45.3" ++ LF)%string.
Proof. reflexivity. Qed.

(** The reader on a line that carries a candidate of five bytes before a
    good frame: the good frame is never reached. *)
Example short_candidate_ends_the_reader :
  data_received active_config (fun _ => noon) 100 short_stream initial =
  Stopped IndexError initial.
Proof. reflexivity. Qed.

(** * Further properties of the code *)

(** ** The byte source *)

Lemma readuntil_Raise sep stream e :
  readuntil sep stream = Raise e ->
  e = IncompleteReadError \/ e = LimitOverrunError.
Proof.
  unfold readuntil. intros H.
  destruct (buffer_find sep stream) as [isep|].
  - destruct (_DEFAULT_LIMIT <? N.of_nat isep)%N; [|discriminate].
    injection H as <-. now right.
  - destruct (_DEFAULT_LIMIT <? N.of_nat (List.length stream))%N;
      injection H as <-; auto.
Qed.

Lemma readuntil_absent sep stream :
  ~ In sep stream ->
  readuntil sep stream =
  Raise (if (_DEFAULT_LIMIT <? N.of_nat (List.length stream))%N
         then LimitOverrunError else IncompleteReadError).
Proof.
  intros Hnotin. unfold readuntil.
  apply buffer_find_None in Hnotin. rewrite Hnotin.
  now destruct (_DEFAULT_LIMIT <? N.of_nat (List.length stream))%N.
Qed.

Lemma readuntil_first sep junk rest :
  ~ In sep junk ->
  readuntil sep (junk ++ sep :: rest) =
  if (_DEFAULT_LIMIT <? N.of_nat (List.length junk))%N
  then Raise LimitOverrunError else Ok (junk ++ [sep], rest).
Proof.
  intros Hnotin. unfold readuntil. rewrite buffer_find_first by assumption.
  now rewrite firstn_past, skipn_past.
Qed.

Lemma readuntil_app sep stream tail :
  ~ In sep tail ->
  match readuntil sep stream with
  | Ok (read, rest) => readuntil sep (stream ++ tail) = Ok (read, rest ++ tail)
  | Raise e =>
      exists e',
        readuntil sep (stream ++ tail) = Raise e' /\
        (e = e' \/ (e = IncompleteReadError /\ e' = LimitOverrunError))
  end.
Proof.
  intros Htail. unfold readuntil at 1.
  destruct (buffer_find sep stream) as [isep|] eqn:Hfind.
  - destruct (buffer_find_Some _ _ _ Hfind) as [payload [rest [-> [<- Hnotin]]]].
    rewrite <- app_assoc. simpl. rewrite readuntil_first by assumption.
    destruct (_DEFAULT_LIMIT <? N.of_nat (List.length payload))%N.
    + exists LimitOverrunError. auto.
    + now rewrite firstn_past, skipn_past.
  - apply buffer_find_None in Hfind.
    rewrite readuntil_absent
      by (intros Hin; apply in_app_or in Hin; tauto).
    rewrite length_app.
    destruct (N.ltb_spec _DEFAULT_LIMIT (N.of_nat (List.length stream))) as [Hover|Hin].
    + exists LimitOverrunError. split; [|now left].
      destruct (N.ltb_spec _DEFAULT_LIMIT
                  (N.of_nat (List.length stream + List.length tail)));
        [reflexivity|lia].
    + eexists. split; [reflexivity|].
      destruct (_DEFAULT_LIMIT <?
                N.of_nat (List.length stream + List.length tail))%N; auto.
Qed.

Section ReaderRuns.

Context {E : Externals}.
Variables (cfg : config) (clock : nat -> string).

(** X1.  A candidate of fewer than 6 bytes never reaches the decoder: with
    fewer than 5 bytes it is dropped and the state is as before, with
    exactly 5 bytes [buffer[5]] raises IndexError, whatever the bytes. *)
Theorem candidate_below_six_bytes (buffer : list byte) (st : state) :
  List.length buffer < 6 ->
  process cfg clock buffer st =
  if (List.length buffer =? 5)%nat then Abort IndexError st else Continue st.
Proof.
  intros Hlen. unfold process, frame_check.
  destruct (Nat.leb_spec 5 (List.length buffer)) as [H5|H5].
  - assert (Hnone : nth_error buffer 5 = None) by (apply nth_error_None; lia).
    rewrite Hnone.
    destruct (Nat.eqb_spec (List.length buffer) 5); [reflexivity|lia].
  - destruct (Nat.eqb_spec (List.length buffer) 5); [lia|reflexivity].
Qed.

(** X2.  On an input without the delimiter, the empty input among them,
    the reader leaves at its first read, without calling the decoder or
    assigning the global: with IncompleteReadError at the end of an input
    within the limit of the stream, with LimitOverrunError on a longer
    one. *)
Theorem input_without_delimiter (fuel : nat) (r : list byte) (st : state) :
  ~ In xaa r ->
  data_received cfg clock fuel r st =
  Stopped (if (_DEFAULT_LIMIT <? N.of_nat (List.length r))%N
           then LimitOverrunError else IncompleteReadError) st.
Proof.
  intros Hr. unfold data_received. now rewrite readuntil_absent.
Qed.

Lemma loop_app tail (Htail : ~ In xaa tail) fuel : forall stream st,
  same_but_last_read (loop cfg clock fuel stream st)
                     (loop cfg clock fuel (stream ++ tail) st).
Proof.
  induction fuel as [|fuel IH]; simpl; intros stream st; [reflexivity|].
  pose proof (readuntil_app xaa stream tail Htail) as Happ.
  destruct (readuntil xaa stream) as [[read rest]|e].
  - rewrite Happ.
    destruct (process cfg clock (frame_buffer read) st); [apply IH|].
    simpl. auto.
  - destruct Happ as [e' [-> He]]. simpl. auto.
Qed.

(** X3.  Bytes after the last delimiter are the start of a frame that has
    not ended: the run with them does to the global and to the decoder
    what the run without them does, and ends with the same exception,
    but that what ended at the end of the input with IncompleteReadError
    may now end over the limit with LimitOverrunError. *)
Theorem unfinished_frame_is_ignored
  (fuel : nat) (r tail : list byte) (st : state) :
  ~ In xaa tail ->
  same_but_last_read (data_received cfg clock fuel r st)
                     (data_received cfg clock fuel (r ++ tail) st).
Proof.
  intros Htail. unfold data_received.
  pose proof (readuntil_app xaa r tail Htail) as Happ.
  destruct (readuntil xaa r) as [[read rest]|e].
  - rewrite Happ. now apply loop_app.
  - destruct Happ as [e' [-> He]]. simpl. auto.
Qed.

(** X4.  The bytes before the first delimiter are thrown away, as long as
    they are no more than the limit of the stream: the run is then that
    of the loop on what follows that delimiter.  On more of them the
    first read raises LimitOverrunError and nothing is read. *)
Theorem bytes_before_first_delimiter_are_skipped
  (fuel : nat) (junk rest : list byte) (st : state) :
  ~ In xaa junk ->
  data_received cfg clock fuel (junk ++ xaa :: rest) st =
  if (_DEFAULT_LIMIT <? N.of_nat (List.length junk))%N
  then Stopped LimitOverrunError st
  else loop cfg clock fuel rest st.
Proof.
  intros Hjunk. unfold data_received. rewrite readuntil_first by assumption.
  now destruct (_DEFAULT_LIMIT <? N.of_nat (List.length junk))%N.
Qed.

(** How a run of the loop ends, from a state in which every decoder call
    so far was followed by an assignment. *)
Lemma loop_ending fuel : forall stream st,
  store_writes st = List.length (decoder_calls st) ->
  List.length stream < fuel ->
  exists e st',
    loop cfg clock fuel stream st = Stopped e st' /\
    ((store_writes st' = List.length (decoder_calls st') /\
      (e = IncompleteReadError \/ e = LimitOverrunError \/ e = IndexError)) \/
     (S (store_writes st') = List.length (decoder_calls st') /\
      exists calls buffer,
        decoder_calls st' = calls ++ [buffer] /\
        decode cfg (clock (List.length calls)) buffer = Raise e)).
Proof.
  induction fuel as [|fuel IH]; simpl; intros stream st Hst Hlen; [lia|].
  destruct (readuntil xaa stream) as [[read rest]|e] eqn:Hread.
  - apply readuntil_shorter in Hread. unfold process, frame_check.
    destruct (5 <=? List.length (frame_buffer read))%nat.
    + destruct (nth_error (frame_buffer read) 5) as [b|].
      * destruct (Byte.eqb b x10).
        -- destruct (decode cfg _ (frame_buffer read)) as [rd|e] eqn:Hdec.
           ++ apply IH; [|lia]. simpl. rewrite length_app. simpl. lia.
           ++ exists e. eexists. split; [reflexivity|]. right. simpl. split.
              ** rewrite length_app. simpl. lia.
              ** exists (decoder_calls st), (frame_buffer read). now split.
        -- apply IH; [assumption|lia].
      * exists IndexError, st. split; [reflexivity|]. left. auto.
    + apply IH; [assumption|lia].
  - exists e, st. split; [reflexivity|]. left. split; [assumption|].
    apply readuntil_Raise in Hread. tauto.
Qed.

(** X5.  With as much fuel as there are pending bytes, a run from the
    initial state ends in an exception, and there are four ways.  The
    input ran out (IncompleteReadError), a read went over the limit of
    the stream (LimitOverrunError), or a candidate of five bytes raised
    IndexError: in these three every decoder call was followed by an
    assignment of the global.  Or the decoder raised on its last call, the
    one call without an assignment. *)
Theorem how_a_run_ends (fuel : nat) (r : list byte) :
  List.length r <= fuel ->
  exists e st,
    data_received cfg clock fuel r initial = Stopped e st /\
    ((store_writes st = List.length (decoder_calls st) /\
      (e = IncompleteReadError \/ e = LimitOverrunError \/ e = IndexError)) \/
     (S (store_writes st) = List.length (decoder_calls st) /\
      exists calls buffer,
        decoder_calls st = calls ++ [buffer] /\
        decode cfg (clock (List.length calls)) buffer = Raise e)).
Proof.
  intros Hlen. unfold data_received.
  destruct (readuntil xaa r) as [[read rest]|e] eqn:Hread.
  - apply readuntil_shorter in Hread. apply loop_ending; [reflexivity|lia].
  - exists e, initial. split; [reflexivity|]. left. split; [reflexivity|].
    apply readuntil_Raise in Hread. tauto.
Qed.

(** The global and the last decoder call, as an invariant of the run. *)
Lemma store_latest_invariant (fuel : nat) (r : list byte) :
  let st := state_of (data_received cfg clock fuel r initial) in
  (decoder_calls st = [] -> parsed_datagram st = None) /\
  (forall calls buffer rd,
     decoder_calls st = calls ++ [buffer] ->
     decode cfg (clock (List.length calls)) buffer = Ok rd ->
     parsed_datagram st = Some rd).
Proof.
  apply (data_received_invariant cfg clock
    (fun st =>
       (decoder_calls st = [] -> parsed_datagram st = None) /\
       (forall calls buffer rd,
          decoder_calls st = calls ++ [buffer] ->
          decode cfg (clock (List.length calls)) buffer = Ok rd ->
          parsed_datagram st = Some rd))).
  - intros payload st _ [Hnone Hlast]. unfold process.
    destruct (frame_check (xaa :: payload)) as [[|]|e]; simpl; try (now split).
    destruct (decode cfg _ (xaa :: payload)) as [rd|e] eqn:Hdec; simpl.
    + split.
      * intros H. now destruct (decoder_calls st).
      * intros calls buffer rd' Hcalls Hrd'.
        apply app_inj_tail in Hcalls. destruct Hcalls as [<- <-]. congruence.
    + split.
      * intros H. now destruct (decoder_calls st).
      * intros calls buffer rd' Hcalls Hrd'.
        apply app_inj_tail in Hcalls. destruct Hcalls as [<- <-]. congruence.
  - split; [reflexivity|]. intros calls buffer rd H. now destruct calls.
Qed.

(** X6.  Throughout a run from the initial state the global holds the
    latest Reading: [None] as long as the decoder was never called, and
    after a call that returned, what that call returned at the time of
    that call.  Only a last call that raised leaves an older value. *)
Theorem store_holds_latest_reading (fuel : nat) (r : list byte) :
  let st := state_of (data_received cfg clock fuel r initial) in
  match rev (decoder_calls st) with
  | [] => parsed_datagram st = None
  | buffer :: earlier =>
      match decode cfg (clock (List.length earlier)) buffer with
      | Ok rd => parsed_datagram st = Some rd
      | Raise _ => True
      end
  end.
Proof.
  intros st. destruct (store_latest_invariant fuel r) as [Hnone Hlast].
  fold st in Hnone, Hlast.
  destruct (rev (decoder_calls st)) as [|buffer earlier] eqn:Hrev.
  - apply Hnone. rewrite <- (rev_involutive (decoder_calls st)), Hrev. reflexivity.
  - destruct (decode cfg (clock (List.length earlier)) buffer) as [rd|e] eqn:Hdec;
      [|exact I].
    apply (Hlast (rev earlier) buffer).
    + rewrite <- (rev_involutive (decoder_calls st)), Hrev. reflexivity.
    + now rewrite length_rev.
Qed.

(** X7.  Every buffer that a run gives to the decoder holds the delimiter
    exactly once, as its first byte. *)
Theorem decoder_buffers_hold_one_delimiter (fuel : nat) (r : list byte) :
  Forall (fun buffer => count_occ Byte.byte_eq_dec buffer xaa = 1 /\
                        hd_error buffer = Some xaa)
    (decoder_calls (state_of (data_received cfg clock fuel r initial))).
Proof.
  eapply Forall_impl; [|apply data_received_calls_delimited].
  intros buffer [payload [-> Hpayload]]. split; [|reflexivity].
  rewrite count_occ_cons_eq by reflexivity. f_equal.
  now apply count_occ_not_In.
Qed.

End ReaderRuns.

(** ** The decoder on schemas of any shape *)

Section DecoderShape.

Context {E : Externals}.

Lemma mem_app k ks ks' : mem k (ks ++ ks') = mem k ks || mem k ks'.
Proof. unfold mem. apply existsb_app. Qed.

(** The keys after the sensor loop: those before it, then the sensor
    names that were not among them. *)
Lemma parse_sensors_all_keys cfg pkt : forall keys datagram r,
  NoDup keys ->
  parse_sensors cfg pkt keys datagram = Ok r ->
  dict_keys r =
  dict_keys datagram ++
  filter (fun k => negb (mem k (dict_keys datagram))) keys.
Proof.
  induction keys as [|name keys IH]; simpl; intros datagram r Hnd H.
  - injection H as <-. now rewrite app_nil_r.
  - inversion Hnd as [|? ? Hnotin Hnd']; subst.
    destruct (dict_get (sensors cfg) name) as [s|]; [|discriminate].
    apply bind_Ok in H. destruct H as [v [_ H]].
    rewrite (IH _ _ Hnd' H), dict_set_keys.
    destruct (mem name (dict_keys datagram)) eqn:Hmem; simpl; [reflexivity|].
    rewrite <- app_assoc. simpl. do 2 f_equal.
    apply filter_ext_in. intros k Hk. rewrite mem_app. simpl.
    destruct (String.eqb_spec k name) as [->|Hne]; [contradiction|].
    now rewrite !orb_false_r.
Qed.

(** The sensor loop leaves alone what is under other keys. *)
Lemma parse_sensors_other_keys cfg pkt : forall keys datagram r k,
  parse_sensors cfg pkt keys datagram = Ok r ->
  ~ In k keys -> dict_get r k = dict_get datagram k.
Proof.
  induction keys as [|name keys IH]; simpl; intros datagram r k H Hk.
  - now injection H as <-.
  - destruct (dict_get (sensors cfg) name) as [s|]; [|discriminate].
    apply bind_Ok in H. destruct H as [v [_ H]].
    rewrite (IH _ _ k H) by tauto. rewrite dict_get_set.
    destruct (String.eqb_spec name k); [tauto|reflexivity].
Qed.

(** Under each sensor name it leaves what the sensor's field decoder
    returned. *)
Lemma parse_sensors_values cfg pkt : forall keys datagram r,
  NoDup keys ->
  parse_sensors cfg pkt keys datagram = Ok r ->
  forall k, In k keys ->
    exists s v, dict_get (sensors cfg) k = Some s /\
                sensor_value pkt s = Ok v /\
                dict_get r k = Some (PyVal v).
Proof.
  induction keys as [|name keys IH]; simpl; intros datagram r Hnd H k Hk;
    [contradiction|].
  inversion Hnd as [|? ? Hnotin Hnd']; subst.
  destruct (dict_get (sensors cfg) name) as [s|] eqn:Hs; [|discriminate].
  apply bind_Ok in H. destruct H as [v [Hv H]].
  destruct Hk as [<-|Hk].
  - exists s, v. repeat split; try assumption.
    rewrite (parse_sensors_other_keys _ _ _ _ _ name H Hnotin).
    now rewrite dict_get_set, String.eqb_refl.
  - now apply (IH _ _ Hnd' H).
Qed.

(** It returns as soon as every field decoder it calls does. *)
Lemma parse_sensors_total cfg pkt : forall keys datagram,
  (forall k, In k keys ->
     exists s v, dict_get (sensors cfg) k = Some s /\ sensor_value pkt s = Ok v) ->
  exists r, parse_sensors cfg pkt keys datagram = Ok r.
Proof.
  induction keys as [|name keys IH]; simpl; intros datagram Hall; [now eauto|].
  destruct (Hall name) as [s [v [-> Hv]]]; [now left|].
  rewrite Hv. simpl. apply IH. intros k Hk. apply Hall. now right.
Qed.

(** X8.  Whatever the sensors are called, a Reading has the keys
    [device], [timestamp], then the names of the schema's sensors other
    than those two, in schema order: a sensor named like a fixed field has
    no entry of its own. *)
Theorem reading_keys (cfg : config) (now : string) (buffer : list byte)
  (r : reading) :
  dict_ok (sensors cfg) ->
  decode cfg now buffer = Ok r ->
  dict_keys r =
  "device" :: "timestamp" ::
  filter (fun k => negb (mem k fixed_fields)) (dict_keys (sensors cfg)).
Proof.
  intros Hok H. rewrite decode_unfold in H.
  apply bind_Ok in H. destruct H as [pkt [_ H]].
  now rewrite (parse_sensors_all_keys _ _ _ _ _ Hok H).
Qed.

(** X9.  In a Reading every sensor of the schema, one named like a fixed
    field too, has under its name the value that its field decoder
    returned for the packet made of the buffer. *)
Theorem reading_holds_every_sensor_value
  (cfg : config) (now : string) (buffer : list byte) (r : reading) :
  dict_ok (sensors cfg) ->
  decode cfg now buffer = Ok r ->
  exists pkt,
    VBUSPacket buffer = Ok pkt /\
    forall name s, In (name, s) (sensors cfg) ->
      exists v, sensor_value pkt s = Ok v /\ dict_get r name = Some (PyVal v).
Proof.
  intros Hok H. rewrite decode_unfold in H.
  apply bind_Ok in H. destruct H as [pkt [Hpkt H]].
  exists pkt. split; [assumption|]. intros name s Hin.
  destruct (parse_sensors_values _ _ _ _ _ Hok H name) as [s' [v [Hs' [Hv Hr]]]].
  - change name with (fst (name, s)). now apply in_map.
  - rewrite (dict_get_entry _ _ _ Hok Hin) in Hs'. injection Hs' as <-.
    now exists v.
Qed.

(** X10.  Unless a sensor takes the name, a Reading has the configured
    device name under [device] and the time of the call under
    [timestamp]. *)
Theorem reading_fixed_fields
  (cfg : config) (now : string) (buffer : list byte) (r : reading) :
  decode cfg now buffer = Ok r ->
  (~ In "device" (dict_keys (sensors cfg)) ->
   dict_get r "device" = Some (PyStr (device_name cfg))) /\
  (~ In "timestamp" (dict_keys (sensors cfg)) ->
   dict_get r "timestamp" = Some (PyStr now)).
Proof.
  intros H. rewrite decode_unfold in H.
  apply bind_Ok in H. destruct H as [pkt [_ H]].
  split; intros Hfree;
    now rewrite (parse_sensors_other_keys _ _ _ _ _ _ H Hfree).
Qed.

(** X11.  The decoder returns a Reading exactly when the packet class
    accepts the buffer and the field decoder of every sensor of the schema
    returns: one sensor that cannot be read leaves no Reading at all. *)
Theorem decode_all_or_nothing
  (cfg : config) (now : string) (buffer : list byte) :
  dict_ok (sensors cfg) ->
  (exists r, decode cfg now buffer = Ok r) <->
  (exists pkt,
     VBUSPacket buffer = Ok pkt /\
     forall name s, In (name, s) (sensors cfg) ->
       exists v, sensor_value pkt s = Ok v).
Proof.
  intros Hok. split.
  - intros [r H]. rewrite decode_unfold in H.
    apply bind_Ok in H. destruct H as [pkt [Hpkt H]].
    exists pkt. split; [assumption|]. intros name s Hin.
    destruct (parse_sensors_values _ _ _ _ _ Hok H name) as [s' [v [Hs' [Hv _]]]].
    + change name with (fst (name, s)). now apply in_map.
    + rewrite (dict_get_entry _ _ _ Hok Hin) in Hs'. injection Hs' as <-.
      now exists v.
  - intros [pkt [Hpkt Hall]]. rewrite decode_unfold, Hpkt. simpl.
    apply parse_sensors_total. intros k Hk.
    destruct (dict_get_key _ _ Hk) as [s Hs]. exists s.
    destruct (Hall k s (dict_get_Some_In _ _ _ Hs)) as [v Hv]. now exists v.
Qed.

End DecoderShape.

(** ** The schema filter, further *)

Lemma dict_get_filter {V : Type} (f : string * V -> bool) (d : dict V) k :
  dict_ok d ->
  dict_get (filter f d) k =
  match dict_get d k with
  | Some v => if f (k, v) then Some v else None
  | None => None
  end.
Proof.
  unfold dict_ok.
  induction d as [|[k' v'] d IH]; simpl; intros Hok; [reflexivity|].
  inversion Hok as [|? ? Hnotin Hok']; subst.
  destruct (String.eqb_spec k' k) as [->|Hne].
  - destruct (f (k, v')); simpl.
    + now rewrite String.eqb_refl.
    + rewrite (IH Hok').
      assert (Hnone : dict_get d k = None) by now apply dict_get_None.
      now rewrite Hnone.
  - destruct (f (k', v')); simpl; [|now apply IH].
    destruct (String.eqb_spec k' k); [contradiction|now apply IH].
Qed.

(** X12.  Loading is idempotent: on a configuration that [parse_config]
    returned, [parse_config] returns that configuration. *)
Theorem parse_config_idempotent (raw cfg : config) :
  dict_ok (sensors raw) ->
  parse_config raw = Ok cfg ->
  parse_config cfg = Ok cfg.
Proof.
  intros Hok H. rewrite parse_config_filter in H by assumption.
  injection H as <-. rewrite parse_config_filter by now apply dict_filter_ok.
  simpl. rewrite filter_twice. do 2 f_equal.
  apply filter_ext. intros e. now destruct (sensor_enabled (snd e)).
Qed.

(** X13.  After loading, the section is still a well-formed dictionary,
    and a name looks up the sensor it looked up before if that sensor is
    enabled, with every setting as it was, and nothing otherwise. *)
Theorem parse_config_lookup (raw cfg : config) :
  dict_ok (sensors raw) ->
  parse_config raw = Ok cfg ->
  device_name cfg = device_name raw /\
  dict_ok (sensors cfg) /\
  forall name,
    dict_get (sensors cfg) name =
    match dict_get (sensors raw) name with
    | Some s => if sensor_enabled s then Some s else None
    | None => None
    end.
Proof.
  intros Hok H. rewrite parse_config_filter in H by assumption.
  injection H as <-. simpl. split; [reflexivity|]. split.
  - now apply dict_filter_ok.
  - intros name. now rewrite dict_get_filter.
Qed.

Section EmptySchema.

Context {E : Externals}.

(** X14.  When every sensor of the raw configuration is disabled, the
    active schema is empty; a Reading is then the two fixed fields alone,
    whatever the buffer the packet class accepts, and the metrics handler
    answers it with status 200 and an empty text. *)
Theorem all_disabled_leaves_fixed_fields_only (raw : config) :
  dict_ok (sensors raw) ->
  (forall name s, In (name, s) (sensors raw) -> sensor_enabled s = false) ->
  exists cfg,
    parse_config raw = Ok cfg /\
    sensors cfg = [] /\
    forall now buffer,
      decode cfg now buffer =
      (_ <- VBUSPacket buffer ;;
       Ok [("device", PyStr (device_name raw)); ("timestamp", PyStr now)]) /\
      forall r, decode cfg now buffer = Ok r ->
        prometheus_handler cfg (Some r) = Response "".
Proof.
  intros Hok Hoff.
  assert (Hnil : filter (fun e => sensor_enabled (snd e)) (sensors raw) = []).
  { clear Hok. induction (sensors raw) as [|[k s] sec IH]; [reflexivity|].
    simpl. rewrite (Hoff k s) by now left.
    apply IH. intros name s' Hin. apply (Hoff name s'). now right. }
  eexists. split; [now apply parse_config_filter|]. rewrite Hnil. simpl.
  split; [reflexivity|]. intros now buffer.
  assert (Hdec : decode {| device_name := device_name raw; sensors := [] |}
                   now buffer =
                 (_ <- VBUSPacket buffer ;;
                  Ok [("device", PyStr (device_name raw));
                      ("timestamp", PyStr now)])).
  { rewrite decode_unfold. now destruct (VBUSPacket buffer). }
  split; [exact Hdec|]. intros r Hr. rewrite Hdec in Hr.
  apply bind_Ok in Hr. destruct Hr as [pkt [_ Hr]]. now injection Hr as <-.
Qed.

End EmptySchema.

(** ** The handlers on Readings and schemas that do not match *)

Section PublisherEdges.

Context {E : Externals}.

Lemma metrics_text_missing cfg (r : reading) : forall keys response,
  (forall k, In k keys -> In k (dict_keys r)) ->
  (exists k, In k keys /\ mem k fixed_fields = false /\
             dict_get (sensors cfg) k = None) ->
  exists k, In k keys /\ mem k fixed_fields = false /\
            dict_get (sensors cfg) k = None /\
            metrics_text cfg r keys response = Raise (KeyError k).
Proof.
  induction keys as [|k keys IH]; intros response Hin [km [Hkm [Hfree Hnone]]];
    [contradiction|].
  cbn [metrics_text].
  assert (Hrest : forall k', In k' keys -> In k' (dict_keys r))
    by (intros k' Hk'; apply Hin; now right).
  destruct (mem k fixed_fields) eqn:Hfixed; cbn [negb].
  - destruct Hkm as [->|Hkm]; [congruence|].
    destruct (IH response Hrest) as [k' [Hk' H]]; [now exists km|].
    exists k'. split; [now right|exact H].
  - destruct (dict_get (sensors cfg) k) as [s|] eqn:Hs.
    + destruct (dict_get_key r k) as [v ->]; [apply Hin; now left|].
      destruct Hkm as [->|Hkm]; [congruence|].
      destruct (IH (response ++
                    "# HELP " ++ k ++ " " ++ sensor_description s ++ LF ++
                    "# TYPE " ++ k ++ " " ++ sensor_metrics s ++ LF ++
                    k ++ " " ++ str v ++ LF)%string Hrest)
        as [k' [Hk' H]]; [now exists km|].
      exists k'. split; [now right|exact H].
    + exists k. repeat split; try assumption. now left.
Qed.

(** X15.  When a Reading has an entry, other than the fixed fields, whose
    key the schema does not have, the metrics handler makes no response:
    the lookup of line 164 raises KeyError for such a key, and the
    exception leaves the handler. *)
Theorem metrics_of_unknown_sensor_raises
  (cfg : config) (r : reading) (name : string) :
  In name (dict_keys r) ->
  ~ In name fixed_fields ->
  ~ In name (dict_keys (sensors cfg)) ->
  exists k,
    In k (dict_keys r) /\ ~ In k fixed_fields /\
    ~ In k (dict_keys (sensors cfg)) /\
    prometheus_handler cfg (Some r) = Unhandled (KeyError k).
Proof.
  intros Hin Hfree Hnew.
  destruct (metrics_text_missing cfg r (dict_keys r) "") as [k [Hk [Hf [Hnone H]]]].
  - auto.
  - exists name. repeat split; [assumption|now apply mem_not_In|].
    now apply dict_get_None.
  - exists k. repeat split; [assumption|now apply mem_not_In|
                               now apply dict_get_None|].
    unfold prometheus_handler. now rewrite H.
Qed.

Lemma metrics_text_same_schema cfg cfg' (r : reading) : forall keys response,
  (forall k, In k keys -> mem k fixed_fields = false ->
     dict_get (sensors cfg) k = dict_get (sensors cfg') k) ->
  metrics_text cfg r keys response = metrics_text cfg' r keys response.
Proof.
  induction keys as [|k keys IH]; intros response Hsame; [reflexivity|].
  cbn [metrics_text].
  assert (Hrest : forall k', In k' keys -> mem k' fixed_fields = false ->
                    dict_get (sensors cfg) k' = dict_get (sensors cfg') k')
    by (intros k' Hk'; apply Hsame; now right).
  destruct (mem k fixed_fields) eqn:Hfixed; cbn [negb]; [now apply IH|].
  rewrite <- (Hsame k) by (assumption || now left).
  destruct (dict_get (sensors cfg) k) as [s|]; [|reflexivity].
  destruct (dict_get r k) as [v|]; [|reflexivity].
  now apply IH.
Qed.

(** X16.  The metrics handler consults the schema for the keys of the
    Reading only: under two schemas that look up the same sensor for each
    of them it ends the same way, so a sensor that the schema has and the
    Reading has not gets no block and raises nothing. *)
Theorem metrics_ignore_sensors_outside_reading
  (cfg cfg' : config) (r : reading) :
  (forall k, In k (dict_keys r) -> ~ In k fixed_fields ->
     dict_get (sensors cfg) k = dict_get (sensors cfg') k) ->
  prometheus_handler cfg (Some r) = prometheus_handler cfg' (Some r).
Proof.
  intros Hsame. unfold prometheus_handler.
  rewrite (metrics_text_same_schema cfg cfg' r); [reflexivity|].
  intros k Hk Hf. apply Hsame; [assumption|now apply mem_not_In].
Qed.

Lemma sensor_entries_agree : forall (r1 r2 : reading),
  dict_keys r1 = dict_keys r2 ->
  dict_ok r1 ->
  (forall k, mem k fixed_fields = false -> dict_get r1 k = dict_get r2 k) ->
  sensor_entries r1 = sensor_entries r2.
Proof.
  unfold dict_ok.
  induction r1 as [|[k v1] r1 IH]; intros [|[k2 v2] r2] Hkeys Hok Hget;
    try discriminate; [reflexivity|].
  simpl in Hkeys. injection Hkeys as <- Hkeys.
  inversion Hok as [|? ? Hnotin Hok']; subst.
  assert (Htail : forall k', mem k' fixed_fields = false ->
                    dict_get r1 k' = dict_get r2 k').
  { intros k' Hk'. specialize (Hget k' Hk'). cbn [dict_get] in Hget.
    destruct (String.eqb_spec k k') as [Heq|Hne]; [|assumption].
    subst k'.
    assert (H1 : dict_get r1 k = None) by now apply dict_get_None.
    assert (H2 : dict_get r2 k = None)
      by (apply dict_get_None; now rewrite <- Hkeys).
    congruence. }
  unfold sensor_entries. cbn [filter fst].
  fold (sensor_entries r1). fold (sensor_entries r2).
  rewrite (IH r2 Hkeys Hok' Htail).
  destruct (mem k fixed_fields) eqn:Hfixed; cbn [negb]; [reflexivity|].
  specialize (Hget k Hfixed). cbn [dict_get] in Hget.
  rewrite String.eqb_refl in Hget. now injection Hget as <-.
Qed.

(** X17.  The metrics text of a frame does not depend on when the frame
    was decoded: two Readings of one buffer under one schema, made at
    whatever times, get the same answer from the metrics handler. *)
Theorem metrics_do_not_show_the_time
  (cfg : config) (buffer : list byte) (now1 now2 : string) (r1 r2 : reading) :
  decode cfg now1 buffer = Ok r1 ->
  decode cfg now2 buffer = Ok r2 ->
  prometheus_handler cfg (Some r1) = prometheus_handler cfg (Some r2).
Proof.
  intros H1 H2.
  assert (Hd1 : decoded_by cfg r1) by (unfold decoded_by; eauto).
  assert (Hd2 : decoded_by cfg r2) by (unfold decoded_by; eauto).
  rewrite !prometheus_handler_decoded by assumption.
  unfold exposition. do 3 f_equal.
  assert (Hagree : agree_but_timestamp r1 r2).
  { rewrite decode_unfold in H1, H2.
    destruct (VBUSPacket buffer) as [pkt|e]; [|discriminate]. simpl in H1, H2.
    pose proof (parse_sensors_agree cfg pkt (dict_keys (sensors cfg))
                  [("device", PyStr (device_name cfg)); ("timestamp", PyStr now1)]
                  [("device", PyStr (device_name cfg)); ("timestamp", PyStr now2)])
      as Hsame.
    rewrite H1, H2 in Hsame. apply Hsame. split; [reflexivity|].
    intros k Hk. cbn [dict_get].
    destruct (String.eqb "device" k); [reflexivity|].
    destruct (String.eqb_spec "timestamp" k); [congruence|reflexivity]. }
  destruct Hagree as [Hkeys Hget].
  apply sensor_entries_agree; [assumption|apply (decoded_keys cfg r1 Hd1)|].
  intros k Hk. apply Hget. intros ->. discriminate Hk.
Qed.

(** X18.  Once [main] has got as far as starting the server, the global
    holds the Reading of the frame of [dummy_serial], assigned once, and
    neither route answers 503: [/] gives the JSON dump of that Reading and
    [/metrics] its metrics text. *)
Theorem main_leaves_a_reading
  (raw cfg : config) (now : string) (st : state) :
  main raw now = Ok (cfg, st) ->
  exists r,
    parse_config raw = Ok cfg /\
    decode cfg now dummy_buffer = Ok r /\
    parsed_datagram st = Some r /\
    store_writes st = 1 /\
    jsolar_app cfg (parsed_datagram st) "/" = Some (Response (json_dumps r)) /\
    jsolar_app cfg (parsed_datagram st) "/metrics" =
      Some (Response (exposition cfg r)).
Proof.
  unfold main, dummy_serial. intros H.
  apply bind_Ok in H. destruct H as [cfg' [Hcfg H]].
  apply bind_Ok in H. destruct H as [st' [Hst H]].
  injection H as <- <-.
  apply bind_Ok in Hst. destruct Hst as [r [Hr Hst]].
  injection Hst as <-. exists r. simpl.
  repeat split; try assumption.
  unfold jsolar_app. simpl. do 2 f_equal.
  apply (prometheus_handler_decoded cfg' r). unfold decoded_by. eauto.
Qed.

End PublisherEdges.

(** ** The further properties at concrete frames *)

Lemma absent_byte (b : byte) (l : list byte) :
  existsb (Byte.eqb b) l = false -> ~ In b l.
Proof.
  intros H Hin. assert (Ht : existsb (Byte.eqb b) l = true); [|congruence].
  apply existsb_exists. exists b. split; [assumption|apply byte_eqb_refl].
Qed.

(** X1 on a candidate of three bytes. *)
Lemma candidate_below_six_bytes_witness :
  List.length [xaa; x10; x00] < 6 /\
  process active_config (fun _ => noon) [xaa; x10; x00] initial =
  Continue initial.
Proof.
  assert (H : List.length [xaa; x10; x00] < 6) by (apply Nat.ltb_lt; reflexivity).
  split; [exact H|].
  exact (candidate_below_six_bytes active_config (fun _ => noon)
           [xaa; x10; x00] initial H).
Defined.

(** X2 on an input of two bytes. *)
Lemma input_without_delimiter_witness :
  ~ In xaa [x01; x34] /\
  data_received active_config (fun _ => noon) 10 [x01; x34] initial =
  Stopped IncompleteReadError initial.
Proof.
  assert (H : ~ In xaa [x01; x34]) by (apply absent_byte; reflexivity).
  split; [exact H|].
  exact (input_without_delimiter active_config (fun _ => noon) 10
           [x01; x34] initial H).
Defined.

(** X3 on the frame of [dummy_serial] followed by three bytes. *)
Lemma unfinished_frame_is_ignored_witness :
  ~ In xaa [x10; x00; x78] /\
  same_but_last_read
    (data_received active_config (fun _ => noon) 100
       ([x01; x34] ++ dummy_buffer ++ [xaa]) initial)
    (data_received active_config (fun _ => noon) 100
       (([x01; x34] ++ dummy_buffer ++ [xaa]) ++ [x10; x00; x78]) initial).
Proof.
  assert (H : ~ In xaa [x10; x00; x78]) by (apply absent_byte; reflexivity).
  split; [exact H|].
  exact (unfinished_frame_is_ignored active_config (fun _ => noon) 100
           ([x01; x34] ++ dummy_buffer ++ [xaa]) [x10; x00; x78] initial H).
Defined.

(** X4 on two bytes of a frame already under way. *)
Lemma bytes_before_first_delimiter_are_skipped_witness :
  ~ In xaa [x01; x34] /\
  data_received active_config (fun _ => noon) 100
    ([x01; x34] ++ xaa :: List.tl dummy_buffer ++ [xaa]) initial =
  loop active_config (fun _ => noon) 100 (List.tl dummy_buffer ++ [xaa]) initial.
Proof.
  assert (H : ~ In xaa [x01; x34]) by (apply absent_byte; reflexivity).
  split; [exact H|].
  exact (bytes_before_first_delimiter_are_skipped active_config (fun _ => noon)
           100 [x01; x34] (List.tl dummy_buffer ++ [xaa]) initial H).
Defined.

(** X5 on an input with two good frames. *)
Lemma how_a_run_ends_witness :
  List.length two_frames <= 68 /\
  exists e st,
    data_received active_config (fun _ => noon) 68 two_frames initial =
      Stopped e st /\
    ((store_writes st = List.length (decoder_calls st) /\
      (e = IncompleteReadError \/ e = LimitOverrunError \/ e = IndexError)) \/
     (S (store_writes st) = List.length (decoder_calls st) /\
      exists calls buffer,
        decoder_calls st = calls ++ [buffer] /\
        decode active_config noon buffer = Raise e)).
Proof.
  assert (H : List.length two_frames <= 68) by (apply Nat.leb_le; reflexivity).
  split; [exact H|].
  exact (how_a_run_ends active_config (fun _ => noon) 68 two_frames H).
Defined.

(** The same run, evaluated: [collector_frame] is too short for the
    sensor at bytes 10 and 11, so the decoder raises on its second call,
    and the global keeps the Reading of the first. *)
Example two_frames_run :
  data_received active_config (fun _ => noon) 68 two_frames initial =
  Stopped IndexError
    {| parsed_datagram :=
         Some [("device", PyStr "unknown"); ("timestamp", PyStr noon);
               ("packetLen", PyVal (Int 16)); ("temp1", PyVal (Tenths 57))];
       decoder_calls := [dummy_buffer; collector_frame];
       store_writes := 1 |}.
Proof. reflexivity. Qed.

(** X8 on a schema with a sensor named [timestamp]. *)
Lemma reading_keys_witness :
  dict_ok (sensors clash_config) /\
  decode clash_config noon dummy_buffer =
    Ok [("device", PyStr "unknown"); ("timestamp", PyVal (Int 16))] /\
  dict_keys [("device", @PyStr number "unknown"); ("timestamp", PyVal (Int 16))] =
  "device" :: "timestamp" ::
  filter (fun k => negb (mem k fixed_fields)) (dict_keys (sensors clash_config)).
Proof.
  assert (Hok : dict_ok (sensors clash_config))
    by (apply distinct_NoDup; reflexivity).
  split; [exact Hok|]. split; [reflexivity|].
  exact (reading_keys clash_config noon dummy_buffer _ Hok eq_refl).
Defined.

(** X9 on the frame of [dummy_serial]. *)
Lemma reading_holds_every_sensor_value_witness :
  let r := [("device", PyStr "unknown"); ("timestamp", PyStr noon);
            ("packetLen", PyVal (Int 16)); ("temp1", PyVal (Tenths 57))] in
  dict_ok (sensors active_config) /\
  decode active_config noon dummy_buffer = Ok r /\
  exists pkt,
    VBUSPacket dummy_buffer = Ok pkt /\
    forall name s, In (name, s) (sensors active_config) ->
      exists v, sensor_value pkt s = Ok v /\ dict_get r name = Some (PyVal v).
Proof.
  intros r.
  assert (Hok : dict_ok (sensors active_config))
    by (apply distinct_NoDup; reflexivity).
  split; [exact Hok|]. split; [reflexivity|].
  exact (reading_holds_every_sensor_value active_config noon dummy_buffer r
           Hok eq_refl).
Defined.

(** X10 on the frame of [dummy_serial]. *)
Lemma reading_fixed_fields_witness :
  let r := [("device", PyStr "unknown"); ("timestamp", PyStr noon);
            ("packetLen", PyVal (Int 16)); ("temp1", PyVal (Tenths 57))] in
  decode active_config noon dummy_buffer = Ok r /\
  (~ In "device" (dict_keys (sensors active_config)) ->
   dict_get r "device" = Some (PyStr (device_name active_config))) /\
  (~ In "timestamp" (dict_keys (sensors active_config)) ->
   dict_get r "timestamp" = Some (PyStr noon)).
Proof.
  intros r. split; [reflexivity|].
  exact (reading_fixed_fields active_config noon dummy_buffer r eq_refl).
Defined.

(** X11 on the frame of [dummy_serial]. *)
Lemma decode_all_or_nothing_witness :
  dict_ok (sensors active_config) /\
  ((exists r, decode active_config noon dummy_buffer = Ok r) <->
   (exists pkt,
      VBUSPacket dummy_buffer = Ok pkt /\
      forall name s, In (name, s) (sensors active_config) ->
        exists v, sensor_value pkt s = Ok v)).
Proof.
  assert (Hok : dict_ok (sensors active_config))
    by (apply distinct_NoDup; reflexivity).
  split; [exact Hok|].
  exact (decode_all_or_nothing active_config noon dummy_buffer Hok).
Defined.

(** X12 on a raw configuration with a disabled sensor. *)
Lemma parse_config_idempotent_witness :
  dict_ok (sensors raw_config) /\
  parse_config raw_config = Ok active_config /\
  parse_config active_config = Ok active_config.
Proof.
  assert (Hok : dict_ok (sensors raw_config))
    by (apply distinct_NoDup; reflexivity).
  split; [exact Hok|]. split; [reflexivity|].
  exact (parse_config_idempotent raw_config active_config Hok eq_refl).
Defined.

(** X13 on the same. *)
Lemma parse_config_lookup_witness :
  dict_ok (sensors raw_config) /\
  parse_config raw_config = Ok active_config /\
  (device_name active_config = device_name raw_config /\
   dict_ok (sensors active_config) /\
   forall name,
     dict_get (sensors active_config) name =
     match dict_get (sensors raw_config) name with
     | Some s => if sensor_enabled s then Some s else None
     | None => None
     end).
Proof.
  assert (Hok : dict_ok (sensors raw_config))
    by (apply distinct_NoDup; reflexivity).
  split; [exact Hok|]. split; [reflexivity|].
  exact (parse_config_lookup raw_config active_config Hok eq_refl).
Defined.

Lemma idle_config_disabled :
  forall name s, In (name, s) (sensors idle_config) -> sensor_enabled s = false.
Proof.
  intros name s [H|[H|[]]]; injection H as _ <-; reflexivity.
Qed.

(** X14 on a raw configuration with every sensor disabled. *)
Lemma all_disabled_leaves_fixed_fields_only_witness :
  dict_ok (sensors idle_config) /\
  (forall name s, In (name, s) (sensors idle_config) ->
                  sensor_enabled s = false) /\
  exists cfg,
    parse_config idle_config = Ok cfg /\
    sensors cfg = [] /\
    forall now buffer,
      decode cfg now buffer =
      (_ <- VBUSPacket buffer ;;
       Ok [("device", PyStr (device_name idle_config));
           ("timestamp", PyStr now)]) /\
      forall r, decode cfg now buffer = Ok r ->
        prometheus_handler cfg (Some r) = Response "".
Proof.
  assert (Hok : dict_ok (sensors idle_config))
    by (apply distinct_NoDup; reflexivity).
  split; [exact Hok|]. split; [exact idle_config_disabled|].
  exact (all_disabled_leaves_fixed_fields_only idle_config Hok
           idle_config_disabled).
Defined.

(** X15 on a Reading with a sensor that the schema at hand has not. *)
Lemma metrics_of_unknown_sensor_raises_witness :
  let r := [("device", PyStr "unknown"); ("timestamp", PyStr noon);
            ("packetLen", PyVal (Int 16)); ("temp1", PyVal (Tenths 57))] in
  In "packetLen" (dict_keys r) /\
  ~ In "packetLen" fixed_fields /\
  ~ In "packetLen" (dict_keys (sensors collector_config)) /\
  exists k,
    In k (dict_keys r) /\ ~ In k fixed_fields /\
    ~ In k (dict_keys (sensors collector_config)) /\
    prometheus_handler collector_config (Some r) = Unhandled (KeyError k).
Proof.
  intros r.
  assert (H1 : In "packetLen" (dict_keys r)) by (apply mem_In; reflexivity).
  assert (H2 : ~ In "packetLen" fixed_fields) by (apply mem_not_In; reflexivity).
  assert (H3 : ~ In "packetLen" (dict_keys (sensors collector_config)))
    by (apply mem_not_In; reflexivity).
  split; [exact H1|]. split; [exact H2|]. split; [exact H3|].
  exact (metrics_of_unknown_sensor_raises collector_config r "packetLen" H1 H2 H3).
Defined.

Lemma raw_and_active_agree :
  let r := [("device", @PyStr number "unknown"); ("timestamp", PyStr noon);
            ("packetLen", PyVal (Int 16)); ("temp1", PyVal (Tenths 57))] in
  forall k, In k (dict_keys r) -> ~ In k fixed_fields ->
    dict_get (sensors raw_config) k = dict_get (sensors active_config) k.
Proof.
  intros r k Hin Hfree. apply mem_not_In in Hfree.
  destruct Hin as [<-|[<-|[<-|[<-|[]]]]]; try reflexivity; discriminate Hfree.
Qed.

(** X16 on the raw and the active configuration: the disabled sensor is
    in the one schema and in no Reading. *)
Lemma metrics_ignore_sensors_outside_reading_witness :
  let r := [("device", PyStr "unknown"); ("timestamp", PyStr noon);
            ("packetLen", PyVal (Int 16)); ("temp1", PyVal (Tenths 57))] in
  (forall k, In k (dict_keys r) -> ~ In k fixed_fields ->
     dict_get (sensors raw_config) k = dict_get (sensors active_config) k) /\
  prometheus_handler raw_config (Some r) =
  prometheus_handler active_config (Some r).
Proof.
  intros r. split; [exact raw_and_active_agree|].
  exact (metrics_ignore_sensors_outside_reading raw_config active_config r
           raw_and_active_agree).
Defined.

(** X17 on the frame of [dummy_serial], decoded at noon and a minute
    later. *)
Lemma metrics_do_not_show_the_time_witness :
  let later := "2020-06-01T12:01:00+01:00" in
  let r1 := [("device", PyStr "unknown"); ("timestamp", PyStr noon);
             ("packetLen", PyVal (Int 16)); ("temp1", PyVal (Tenths 57))] in
  let r2 := [("device", PyStr "unknown"); ("timestamp", PyStr later);
             ("packetLen", PyVal (Int 16)); ("temp1", PyVal (Tenths 57))] in
  decode active_config noon dummy_buffer = Ok r1 /\
  decode active_config later dummy_buffer = Ok r2 /\
  prometheus_handler active_config (Some r1) =
  prometheus_handler active_config (Some r2).
Proof.
  intros later r1 r2. split; [reflexivity|]. split; [reflexivity|].
  exact (metrics_do_not_show_the_time active_config dummy_buffer noon later
           r1 r2 eq_refl eq_refl).
Defined.

(** X18 on a raw configuration with a disabled sensor. *)
Lemma main_leaves_a_reading_witness :
  let r := [("device", PyStr "unknown"); ("timestamp", PyStr noon);
            ("packetLen", PyVal (Int 16)); ("temp1", PyVal (Tenths 57))] in
  let st := {| parsed_datagram := Some r; decoder_calls := [];
               store_writes := 1 |} in
  main raw_config noon = Ok (active_config, st) /\
  exists r',
    parse_config raw_config = Ok active_config /\
    decode active_config noon dummy_buffer = Ok r' /\
    parsed_datagram st = Some r' /\
    store_writes st = 1 /\
    jsolar_app active_config (parsed_datagram st) "/" =
      Some (Response (json_dumps r')) /\
    jsolar_app active_config (parsed_datagram st) "/metrics" =
      Some (Response (exposition active_config r')).
Proof.
  intros r st. split; [reflexivity|].
  exact (main_leaves_a_reading raw_config active_config noon st eq_refl).
Defined.

(** The limit of the stream, run: behind more bytes than the limit the
    frame of [dummy_serial] is never read, and the global stays [None]. *)
Example junk_over_the_limit :
  data_received active_config (fun _ => noon) 100
    (long_junk ++ dummy_buffer ++ [xaa]) initial =
  Stopped LimitOverrunError initial.
Proof. vm_compute. reflexivity. Qed.
